(** * go-ipintel: the rate-limited query pipeline of [ipintel.go]

    A shallow embedding of package [ipintel] (a client of the
    getipintel.net proxy-detection API) together with the token bucket
    it throttles itself with, and the properties of [NewClient],
    [getURL] and [GetProxyScore].

    Conventions.
    - Go's [int64] (and so [time.Duration], a count of nanoseconds) is a
      [Z] with the two's-complement wrap-around written out ([wrap64]).
    - A [time.Time] is an instant in nanoseconds on the process'
      monotonic clock; [Time.Sub] saturates as Go's does.
    - Go strings are byte strings: [string].
    - A [float32] is carried as its IEEE-754 binary32 bit pattern; the
      package never computes with a score, it only hands it on.
    - [error] is [option string]: [None] is [nil], [Some m] an error
      whose [Error()] text is [m]. *)

From Stdlib Require Import ZArith List String Ascii Bool Lia.
Import ListNotations.

Local Open Scope string_scope.
Local Open Scope Z_scope.

(** ** Machine integers and package [time] *)

Module time.

Definition minInt64 : Z := - 2 ^ 63.
Definition maxInt64 : Z := 2 ^ 63 - 1.

(** Two's-complement reduction of a mathematical integer to [int64]. *)
Definition wrap64 (x : Z) : Z := (x + 2 ^ 63) mod 2 ^ 64 - 2 ^ 63.

Definition add64 (a b : Z) : Z := wrap64 (a + b).
Definition sub64 (a b : Z) : Z := wrap64 (a - b).
Definition mul64 (a b : Z) : Z := wrap64 (a * b).
Definition neg64 (a : Z) : Z := wrap64 (- a).
(** Go's integer division truncates toward zero. *)
Definition div64 (a b : Z) : Z := wrap64 (Z.quot a b).

(** [time.Duration]: an [int64] count of nanoseconds. *)
Definition Duration : Type := Z.
Definition Nanosecond : Duration := 1.
Definition Second : Duration := 1000000000.

(** [time.Time], read on the monotonic clock. *)
Definition Time : Type := Z.

(** [t.Sub(u)]: the difference, clamped to the range of [Duration]. *)
Definition Sub (t u : Time) : Duration :=
  let d := t - u in
  if d <? minInt64 then minInt64
  else if maxInt64 <? d then maxInt64
  else d.

(** [t.Add(d)]. *)
Definition Add (t : Time) (d : Duration) : Time := t + d.

End time.

(** ** The token bucket ([github.com/juju/ratelimit]) *)

(** Modelled from the spec: the token bucket behind [rateLimiter].
    [ipintel.go] takes it from the package [github.com/juju/ratelimit],
    a dependency whose file [ratelimit.go] is not among the sources
    under [src/].  The spec describes it in 4.1 and 5: capacity 15, one
    token every four seconds, refilled lazily when tokens are taken,
    one operation that acquires tokens with a bound on the wait and
    takes nothing when it fails.  The definitions keep the names and
    the steps of the package for the entry points the client reaches
    ([NewBucketWithQuantum], [WaitMaxDuration] and, behind it,
    [TakeMaxDuration], [take], [currentTick] and
    [adjustavailableTokens]): time is cut into ticks of
    [fillInterval], every tick adds [quantum] tokens up to [capacity],
    and the count goes negative while callers wait for tokens they
    have been promised.

    On one point the package and the spec's sentence on a zero
    [maxWait] part: [take] compares the wait with [maxWait] whatever
    its value, so a [maxWait] of zero is a bound of zero, and only the
    package's [Wait], which the client never calls, waits without a
    bound.  The module keeps the package's comparison, since that is
    what the call in [GetProxyScore] runs. *)

Module ratelimit.
Import time.

Record Bucket : Type := mkBucket {
  startTime : Time;         (* when the bucket was created, tick 0 *)
  capacity : Z;
  quantum : Z;              (* tokens added on each tick *)
  fillInterval : Duration;  (* the interval between two ticks *)
  availableTokens : Z;      (* as of [latestTick]; negative: waiters *)
  latestTick : Z
}.

(** [NewBucketWithQuantum(fillInterval, capacity, quantum)], created
    when the clock reads [now]; it panics ([None]) on a parameter
    that is not positive. *)
Definition NewBucketWithQuantum
    (fillInterval : Duration) (capacity quantum : Z) (now : Time)
    : option Bucket :=
  if fillInterval <=? 0 then None
  else if capacity <=? 0 then None
  else if quantum <=? 0 then None
  else Some {| startTime := now;
               capacity := capacity;
               quantum := quantum;
               fillInterval := fillInterval;
               availableTokens := capacity;
               latestTick := 0 |}.

(** [tb.currentTick(now)]: the number of whole ticks since the start. *)
Definition currentTick (tb : Bucket) (now : Time) : Z :=
  div64 (Sub now (startTime tb)) (fillInterval tb).

(** [tb.adjustavailableTokens(tick)]: record [tick] and credit the
    tokens of the ticks gone by, never past [capacity]. *)
Definition adjustavailableTokens (tb : Bucket) (tick : Z) : Bucket :=
  let lastTick := latestTick tb in
  if capacity tb <=? availableTokens tb then
    {| startTime := startTime tb; capacity := capacity tb;
       quantum := quantum tb; fillInterval := fillInterval tb;
       availableTokens := availableTokens tb;
       latestTick := tick |}
  else
    let avail :=
      add64 (availableTokens tb) (mul64 (sub64 tick lastTick) (quantum tb)) in
    {| startTime := startTime tb; capacity := capacity tb;
       quantum := quantum tb; fillInterval := fillInterval tb;
       availableTokens := if capacity tb <? avail then capacity tb else avail;
       latestTick := tick |}.

Definition set_availableTokens (tb : Bucket) (avail : Z) : Bucket :=
  {| startTime := startTime tb; capacity := capacity tb;
     quantum := quantum tb; fillInterval := fillInterval tb;
     availableTokens := avail;
     latestTick := latestTick tb |}.

(** [tb.take(now, count, maxWait)]: the time to wait for [count]
    tokens and whether they were taken, with the bucket afterwards.
    Tokens that are there are taken at once.  Otherwise the tokens
    are promised for the tick [endTick] on which the bucket will
    have them, provided that tick is at most [maxWait] away; if it
    is further away nothing is taken. *)
Definition take (tb : Bucket) (now : Time) (count : Z) (maxWait : Duration)
    : (Duration * bool) * Bucket :=
  if count <=? 0 then ((0, true), tb)
  else
    let tick := currentTick tb now in
    let tb1 := adjustavailableTokens tb tick in
    let avail := sub64 (availableTokens tb1) count in
    if 0 <=? avail then ((0, true), set_availableTokens tb1 avail)
    else
      let endTick :=
        add64 tick
              (div64 (sub64 (add64 (neg64 avail) (quantum tb1)) 1)
                     (quantum tb1)) in
      let endTime := Add (startTime tb1) (mul64 endTick (fillInterval tb1)) in
      let waitTime := Sub endTime now in
      if maxWait <? waitTime then ((0, false), tb1)
      else ((waitTime, true), set_availableTokens tb1 avail).

(** [tb.TakeMaxDuration(count, maxWait)]: [take] at the clock's
    reading, under the bucket's mutex. *)
Definition TakeMaxDuration (tb : Bucket) (now : Time) (count : Z)
    (maxWait : Duration) : (Duration * bool) * Bucket :=
  take tb now count maxWait.

(** [tb.WaitMaxDuration(count, maxWait)]: [TakeMaxDuration], then
    sleep for the time it returned.  The result is whether tokens were
    taken, the clock's reading on return and the bucket. *)
Definition WaitMaxDuration (tb : Bucket) (now : Time) (count : Z)
    (maxWait : Duration) : (bool * Time) * Bucket :=
  let '((d, ok), tb') := TakeMaxDuration tb now count maxWait in
  ((ok, if 0 <? d then Add now d else now), tb').

End ratelimit.

(** ** Package [fmt]

    [fmt.Sprintf] restricted to what the client formats: the verbs
    [%s] and [%v], applied to operands that are strings, or values
    printed through their [String()] or [Error()] method, which the
    caller passes here already printed.  A verb without an operand
    prints Go's [%!s(MISSING)], [%%] is a percent sign, and any other
    verb prints as Go prints a verb that does not fit a string.  Every
    call of the client gives exactly one operand per verb, so the text
    Go appends for operands left over is not modelled. *)

Module fmt.

Fixpoint Sprintf (format : string) (a : list string) : string :=
  match format with
  | EmptyString => EmptyString
  | String ch rest =>
    if Ascii.eqb ch "%" then
      match rest with
      | EmptyString => "%!(NOVERB)"
      | String verb rest' =>
        if Ascii.eqb verb "s" || Ascii.eqb verb "v" then
          match a with
          | x :: a' => x ++ Sprintf rest' a'
          | [] => "%!" ++ String verb "(MISSING)" ++ Sprintf rest' []
          end
        else if Ascii.eqb verb "%" then String "%" (Sprintf rest' a)
        else
          match a with
          | x :: a' =>
            "%!" ++ String verb ("(string=" ++ x ++ ")") ++ Sprintf rest' a'
          | [] => "%!" ++ String verb "(MISSING)" ++ Sprintf rest' []
          end
      end
    else String ch (Sprintf rest a)
  end%string.

(** [fmt.Errorf]: an error with the formatted text. *)
Definition Errorf (format : string) (a : list string) : option string :=
  Some (Sprintf format a).

End fmt.

(** ** Package [ipintel] *)

Import time.

Definition version : string := "0.2.0".
Definition urlBase : string := "check.getipintel.net/check.php".

Definition userAgent : string :=
  ("go-ipintel/" ++ version ++ " (github.com/janeczku/go-ipintel)")%string.

(** [httpClient = http.Client{Timeout: 10 * time.Second}]. *)
Definition httpClient_Timeout : Duration := 10 * Second.

(** The value [rateLimiter] is initialised with when the package is
    loaded, the clock reading [t0]. *)
Definition init_rateLimiter (t0 : Time) : option ratelimit.Bucket :=
  ratelimit.NewBucketWithQuantum (4 * Second) 15 1 t0.

(** [type CheckType string] with its two constants. *)
Definition CheckType : Type := string.
Definition Static : CheckType := "m".
Definition Dynamic : CheckType := "b".

Record Client : Type := mkClient {
  Email : string;
  Scheme : string;
  Check : CheckType;
  MaxWait : Duration
}.

Definition NewClient (email : string) (ssl : bool) (check : CheckType)
    (mWait : Duration) : Client :=
  let scheme := "http" in
  let scheme := if ssl then "https" else scheme in
  {| Email := email; Scheme := scheme; Check := check; MaxWait := mWait |}.

(** [func (c *Client) getURL(ip string) string]. *)
Definition getURL (c : Client) (ip : string) : string :=
  fmt.Sprintf "%s://%s?ip=%s&contact=%s&flags=%s&format=json"
              [Scheme c; urlBase; ip; Email c; Check c].

(** A [float32] by its IEEE-754 binary32 bits. *)
Inductive float32 : Type := Float32frombits (bits : Z).

(** The zero value of [float32], [+0]. *)
Definition float32_zero : float32 := Float32frombits 0.

(** [nil], or an error with the text its [Error()] returns. *)
Definition error : Type := option string.

(** What [net/http] exchanges. *)
Record Request : Type := mkRequest {
  Method : string;
  URL : string;
  Header : list (string * string)
}.

Record Response : Type := mkResponse {
  StatusCode : Z;
  Body : string
}.

(** [req.Header.Set(key, value)]: the entries of [key] are replaced. *)
Definition Header_Set (key value : string) (req : Request) : Request :=
  {| Method := Method req;
     URL := URL req;
     Header := filter (fun kv => negb (String.eqb (fst kv) key)) (Header req)
                 ++ [(key, value)] |}.

(** The struct the body is decoded into, local to [GetProxyScore]. *)
Record response : Type := mkresponse {
  Status : string;     (* json:"status" *)
  ErrMsg : string;     (* json:"message" *)
  Score : float32      (* json:"result,string" *)
}.

(** What a call does to the world outside, in order. *)
Inductive Event : Type :=
| HTTPDo (req : Request)      (* httpClient.Do(req) *)
| BodyDecode (body : string)  (* decoder.Decode(&respObj) *)
| BodyClose.                  (* the deferred resp.Body.Close() *)

(** The state the package's functions share: the package-level bucket,
    the clock, and the log of what has been done so far.  A call moves
    the clock by the time it sleeps for its token; the time the network
    takes is the environment's to add between calls. *)
Record World : Type := mkWorld {
  rateLimiter : ratelimit.Bucket;
  clock : Time;
  trace : list Event
}.

Definition emit (e : Event) (w : World) : World :=
  {| rateLimiter := rateLimiter w; clock := clock w;
     trace := trace w ++ [e] |}.

Section Query.

(** The standard library and the network, as [GetProxyScore] sees them. *)

(** [d.String()] of a [time.Duration], what [%s] prints. *)
Variable Duration_String : Duration -> string.
(** [http.NewRequest] fails with this error when the URL does not parse. *)
Variable url_Parse_error : string -> option string.
(** [httpClient.Do]: the server's answer, or the transport's error. *)
Variable httpClient_Do : Request -> Response + string.
(** [json.NewDecoder(body).Decode(&respObj)]: the struct, or the error. *)
Variable json_Decode : string -> response + string.

Definition http_NewRequest (method url : string) : Request + string :=
  match url_Parse_error url with
  | Some e => inr e
  | None => inl {| Method := method; URL := url; Header := [] |}
  end.

(** [func (c *Client) GetProxyScore(ip string) (score float32, err error)].
    The named result [score] starts at zero and every [return] without
    operands returns it as it is. *)
Definition GetProxyScore (c : Client) (ip : string) (w : World)
    : (float32 * error) * World :=
  let score := float32_zero in
  let '((ok, t), tb) :=
    ratelimit.WaitMaxDuration (rateLimiter w) (clock w) 1 (MaxWait c) in
  let w := {| rateLimiter := tb; clock := t; trace := trace w |} in
  if negb ok then
    ((score, fmt.Errorf "Throttled: Can't make query within the next %s"
                         [Duration_String (MaxWait c)]), w)
  else
    match http_NewRequest "GET" (getURL c ip) with
    | inr e => ((score, fmt.Errorf "Failed preparing request: %v" [e]), w)
    | inl req =>
      let req := Header_Set "User-Agent" userAgent req in
      let w := emit (HTTPDo req) w in
      match httpClient_Do req with
      | inr e => ((score, fmt.Errorf "Failed to query API: %v" [e]), w)
      | inl resp =>
        if StatusCode resp =? 429 then
          ((score, fmt.Errorf "API error: Rate limit exceeded" []), w)
        else
          let w := emit (BodyDecode (Body resp)) w in
          match json_Decode (Body resp) with
          | inr e =>
            ((score, fmt.Errorf "Failed to parse API response: %v" [e]),
             emit BodyClose w)
          | inl respObj =>
            if negb (String.eqb (Status respObj) "success") then
              ((score, fmt.Errorf "API error: %s" [ErrMsg respObj]),
               emit BodyClose w)
            else ((Score respObj, None), emit BodyClose w)
          end
      end
    end.

End Query.

(** ** Vocabulary of the statements *)

(** The package-level bucket as package initialisation at [t0] leaves it. *)
Definition rateLimiter0 (t0 : Time) : ratelimit.Bucket :=
  {| ratelimit.startTime := t0;
     ratelimit.capacity := 15;
     ratelimit.quantum := 1;
     ratelimit.fillInterval := 4 * Second;
     ratelimit.availableTokens := 15;
     ratelimit.latestTick := 0 |}.

(** The world of a process that has loaded the package at [t0] and
    not called it yet. *)
Definition boot (t0 : Time) : World :=
  {| rateLimiter := rateLimiter0 t0; clock := t0; trace := [] |}.

(** Whether a call of client [c] in world [w] gets its token. *)
Definition token_granted (c : Client) (w : World) : bool :=
  fst (fst (ratelimit.WaitMaxDuration (rateLimiter w) (clock w) 1 (MaxWait c))).

(** The world a call leaves once it has been to the bucket. *)
Definition through_the_bucket (c : Client) (w : World) : World :=
  let r := ratelimit.WaitMaxDuration
             (rateLimiter w) (clock w) 1 (MaxWait c) in
  {| rateLimiter := snd r; clock := snd (fst r); trace := trace w |}.

(** The request a call sends once it has its token. *)
Definition request_of (c : Client) (ip : string) : Request :=
  Header_Set "User-Agent" userAgent
             {| Method := "GET"; URL := getURL c ip; Header := [] |}.

(** [strings.Contains(s, substr)]. *)
Fixpoint Contains (s substr : string) : bool :=
  String.prefix substr s
  || match s with
     | EmptyString => false
     | String _ s' => Contains s' substr
     end.

(** [n] calls in a row by the same client, each as soon as the one
    before has returned; the results are dropped. *)
Section Calls.
Variable Duration_String : Duration -> string.
Variable url_Parse_error : string -> option string.
Variable httpClient_Do : Request -> Response + string.
Variable json_Decode : string -> response + string.

Fixpoint calls (n : nat) (c : Client) (ip : string) (w : World) : World :=
  match n with
  | O => w
  | S n' =>
    calls n' c ip
          (snd (GetProxyScore Duration_String url_Parse_error
                              httpClient_Do json_Decode c ip w))
  end.
End Calls.

(** [n] acquisitions of one token in a row, each at the clock reading
    the one before returned at: what [calls] does to bucket and clock. *)
Fixpoint waits (n : nat) (maxWait : Duration) (s : Time * ratelimit.Bucket)
    : Time * ratelimit.Bucket :=
  match n with
  | O => s
  | S n' =>
    let r := ratelimit.WaitMaxDuration (snd s) (fst s) 1 maxWait in
    waits n' maxWait (snd (fst r), snd r)
  end.

(** *** A fixed environment for the examples

    A network that gives the same answer to every request, a URL
    parser that accepts everything, and a decoder that knows five
    bodies.  JSON needs the double quote, written [dq]. *)

Definition dq : string := String (Ascii.ascii_of_nat 34) EmptyString.

(** [{"status":"success","result":"0.5"}] *)
Definition body_success_half : string :=
  ("{" ++ dq ++ "status" ++ dq ++ ":" ++ dq ++ "success" ++ dq ++ ","
       ++ dq ++ "result" ++ dq ++ ":" ++ dq ++ "0.5" ++ dq ++ "}")%string.

(** [{"status":"error","message":"no results"}] *)
Definition body_error_no_results : string :=
  ("{" ++ dq ++ "status" ++ dq ++ ":" ++ dq ++ "error" ++ dq ++ ","
       ++ dq ++ "message" ++ dq ++ ":" ++ dq ++ "no results" ++ dq ++ "}")%string.

(** Not JSON at all. *)
Definition body_malformed : string := "<html>Bad Gateway</html>".

(** The [float32] 0.5: sign 0, exponent 126, mantissa 0. *)
Definition float32_half : float32 := Float32frombits 1056964608.

(** The JSON literal [null]. *)
Definition body_null : string := "null".

(** [{"status":"success","result":"1"}<html>]: a JSON value with
    other text after it. *)
Definition body_success_then_html : string :=
  ("{" ++ dq ++ "status" ++ dq ++ ":" ++ dq ++ "success" ++ dq ++ ","
       ++ dq ++ "result" ++ dq ++ ":" ++ dq ++ "1" ++ dq ++ "}"
       ++ "<html>")%string.

(** The [float32] 1: sign 0, exponent 127, mantissa 0. *)
Definition float32_one : float32 := Float32frombits 1065353216.

(** The zero value of the struct, as [var respObj response] leaves it. *)
Definition response_zero : response :=
  {| Status := ""; ErrMsg := ""; Score := float32_zero |}.

(** A stand-in for [encoding/json] on the bodies of the examples, and
    on those only.  It answers as [Decode] does on the five bodies
    above: the two objects decode to their fields; [null] leaves the
    struct at its zero value and is no error; of a JSON value followed
    by other text the value is decoded and the rest left unread; the
    page of HTML is refused at its first byte.  It is not a JSON
    decoder: any other body gets the answer of the page of HTML, which
    [Decode] gives to some of them and not to others, and no example
    or statement rests on that answer. *)
Definition example_Decode (body : string) : response + string :=
  if String.eqb body body_success_half then
    inl {| Status := "success"; ErrMsg := ""; Score := float32_half |}
  else if String.eqb body body_error_no_results then
    inl {| Status := "error"; ErrMsg := "no results"; Score := float32_zero |}
  else if String.eqb body body_null then inl response_zero
  else if String.eqb body body_success_then_html then
    inl {| Status := "success"; ErrMsg := ""; Score := float32_one |}
  else inr "invalid character '<' looking for beginning of value".

Definition example_Duration_String (d : Duration) : string :=
  if d =? 0 then "0s" else if d =? Second then "1s" else "?".

Definition example_url_Parse_error (url : string) : option string := None.

Definition answer (code : Z) (body : string) (req : Request)
    : Response + string :=
  inl {| StatusCode := code; Body := body |}.

Definition example_GetProxyScore (code : Z) (body : string) :=
  GetProxyScore example_Duration_String example_url_Parse_error
                (answer code body) example_Decode.

Definition example_client : Client := NewClient "a@b.com" false Static 0.

(** *** Traffic on the bucket

    The bucket's mutex puts the acquisitions of all callers, of
    whatever client and goroutine, in one sequence; each reads the
    clock under the mutex, so the readings never go back. *)

(** What became of one acquisition of one token. *)
Record Outcome : Type := mkOutcome {
  asked : Time;        (* the clock reading of the call *)
  bound : Duration;    (* its maxWait *)
  waited : Duration;   (* how long the caller then slept *)
  taken : bool         (* whether it got the token *)
}.

Fixpoint serve (tb : ratelimit.Bucket) (reqs : list (Time * Duration))
    : list Outcome :=
  match reqs with
  | [] => []
  | (now, maxWait) :: rest =>
    let r := ratelimit.take tb now 1 maxWait in
    {| asked := now; bound := maxWait;
       waited := fst (fst r); taken := snd (fst r) |}
      :: serve (snd r) rest
  end.

(** The caller holds its token and runs on at time [T] or before. *)
Definition released_by (T : Time) (o : Outcome) : bool :=
  taken o && (asked o + waited o <=? T).

Definition served_by (T : Time) (outs : list Outcome) : Z :=
  Z.of_nat (List.length (filter (released_by T) outs)).

(** The caller got its token without waiting. *)
Definition at_once (o : Outcome) : bool := taken o && (waited o =? 0).

(** Clock readings and bounds this far from the start of the process
    (seventy-three years) keep the bucket's [int64] arithmetic exact. *)
Definition horizon : Duration := 2 ^ 61.

(** The number of the tick the instant [T] lies in, for a bucket
    started at [t0] that ticks every four seconds. *)
Definition tick_of (t0 T : Time) : Z := (T - t0) / (4 * Second).

(** Acquisitions in the order of the mutex, none before [t]. *)
Fixpoint chronological (t0 t : Time) (reqs : list (Time * Duration)) : Prop :=
  match reqs with
  | [] => True
  | (now, maxWait) :: rest =>
    t <= now /\ now - t0 < horizon /\ maxWait < horizon
    /\ chronological t0 now rest
  end.

(** The states of the package's bucket: as initialised at [t0], and
    after each acquisition of one token; the first index is the start
    of the process, the second the clock reading of the latest call. *)
Inductive Reachable (t0 : Time) : Time -> ratelimit.Bucket -> Prop :=
| Reach_init : Reachable t0 t0 (rateLimiter0 t0)
| Reach_take (t : Time) (tb : ratelimit.Bucket) (now : Time)
    (maxWait : Duration) :
    Reachable t0 t tb ->
    t <= now -> now - t0 < horizon -> maxWait < horizon ->
    Reachable t0 now (snd (ratelimit.take tb now 1 maxWait)).

(** What [Reachable] keeps true of the bucket. *)
Record bucket_inv (t0 t : Time) (tb : ratelimit.Bucket) : Prop := {
  inv_start : ratelimit.startTime tb = t0;
  inv_capacity : ratelimit.capacity tb = 15;
  inv_quantum : ratelimit.quantum tb = 1;
  inv_fill : ratelimit.fillInterval tb = 4 * Second;
  inv_clock : t0 <= t /\ t - t0 < horizon;
  inv_tick : 0 <= ratelimit.latestTick tb
             /\ ratelimit.latestTick tb * (4 * Second) <= t - t0;
  inv_avail : ratelimit.availableTokens tb <= 15;
  inv_promised :
    (ratelimit.latestTick tb - ratelimit.availableTokens tb) * (4 * Second)
    < 2 ^ 62
}.

(** The bucket with [a] tokens as of tick [k]. *)
Definition bucket_at (t0 : Time) (a k : Z) : ratelimit.Bucket :=
  {| ratelimit.startTime := t0;
     ratelimit.capacity := 15;
     ratelimit.quantum := 1;
     ratelimit.fillInterval := 4 * Second;
     ratelimit.availableTokens := a;
     ratelimit.latestTick := k |}.

(** *** Two readings of the response handling to be refuted

    The handling of a response as it would be if the answer's status
    code played no part: every body that decodes to a status other
    than [success] gives an error quoting the service's message, and
    every body that does not decode gives the parse error. *)

Definition message_reported_whatever_the_code : Prop :=
  forall (Duration_String : Duration -> string)
         (url_Parse_error : string -> option string)
         (httpClient_Do : Request -> Response + string)
         (json_Decode : string -> response + string)
         (c : Client) (ip : string) (w : World)
         (resp : Response) (respObj : response),
    token_granted c w = true ->
    url_Parse_error (getURL c ip) = None ->
    httpClient_Do (request_of c ip) = inl resp ->
    json_Decode (Body resp) = inl respObj ->
    Status respObj <> "success"%string ->
    exists e,
      snd (fst (GetProxyScore Duration_String url_Parse_error httpClient_Do
                              json_Decode c ip w)) = Some e
      /\ Contains e (ErrMsg respObj) = true.

Definition parse_error_whatever_the_code : Prop :=
  forall (Duration_String : Duration -> string)
         (url_Parse_error : string -> option string)
         (httpClient_Do : Request -> Response + string)
         (json_Decode : string -> response + string)
         (c : Client) (ip : string) (w : World)
         (resp : Response) (e : string),
    token_granted c w = true ->
    url_Parse_error (getURL c ip) = None ->
    httpClient_Do (request_of c ip) = inl resp ->
    json_Decode (Body resp) = inr e ->
    snd (fst (GetProxyScore Duration_String url_Parse_error httpClient_Do
                            json_Decode c ip w))
    = Some ("Failed to parse API response: " ++ e)%string.

(** JSON's white space. *)
Definition is_JSON_space (a : ascii) : bool :=
  Ascii.eqb a " " || (Ascii.nat_of_ascii a =? 9)%nat
  || (Ascii.nat_of_ascii a =? 10)%nat || (Ascii.nat_of_ascii a =? 13)%nat.

(** The first byte of a body that is not white space. *)
Fixpoint first_byte (body : string) : option ascii :=
  match body with
  | EmptyString => None
  | String a rest => if is_JSON_space a then first_byte rest else Some a
  end.

(** The expected body is a JSON object: its first byte is a brace.  A
    body that starts otherwise is not valid JSON in the expected
    shape, whatever follows. *)
Definition not_an_object (body : string) : bool :=
  match first_byte body with
  | Some a => negb (Ascii.eqb a "{")
  | None => true
  end.

(** Every body that is not the expected JSON gives the parse error,
    once the 429 is set apart: the reading of the response handling
    that [null] refutes.  Of the decoder it takes what [encoding/json]
    documents: [null], decoded into a struct, has no effect and is no
    error. *)
Definition parse_error_on_every_malformed_body : Prop :=
  forall (Duration_String : Duration -> string)
         (url_Parse_error : string -> option string)
         (httpClient_Do : Request -> Response + string)
         (json_Decode : string -> response + string)
         (c : Client) (ip : string) (w : World) (resp : Response),
    json_Decode body_null = inl response_zero ->
    token_granted c w = true ->
    url_Parse_error (getURL c ip) = None ->
    httpClient_Do (request_of c ip) = inl resp ->
    StatusCode resp <> 429 ->
    not_an_object (Body resp) = true ->
    exists e,
      snd (fst (GetProxyScore Duration_String url_Parse_error httpClient_Do
                              json_Decode c ip w))
      = Some ("Failed to parse API response: " ++ e)%string.

(** The bucket after the acquisitions [reqs]. *)
Fixpoint bucket_after (tb : ratelimit.Bucket) (reqs : list (Time * Duration))
    : ratelimit.Bucket :=
  match reqs with
  | [] => tb
  | (now, maxWait) :: rest =>
    bucket_after (snd (ratelimit.take tb now 1 maxWait)) rest
  end.

(** The reading of the burst to be refuted: of acquisitions that come
    faster than one a tick, never more than fifteen are served at
    once, however many ticks they span. *)
Definition at_most_fifteen_at_once : Prop :=
  forall (t0 t : Time) (tb : ratelimit.Bucket)
         (reqs : list (Time * Duration)) (now1 T : Time),
    Reachable t0 t tb ->
    chronological t0 t reqs ->
    hd_error (map fst reqs) = Some now1 ->
    Forall (fun r => fst r <= T) reqs ->
    tick_of t0 T - tick_of t0 now1 + 1 < Z.of_nat (List.length reqs) ->
    Z.of_nat (List.length (filter at_once (serve tb reqs))) <= 15.

(** Sixteen acquisitions in four seconds: fifteen at the start of the
    process and one as tick 1 begins, none of them willing to wait. *)
Definition sixteen_in_four_seconds : list (Time * Duration) :=
  (repeat (0, 0) 15 ++ [(4 * Second, 0)])%list.

(** A world in which the burst has been used up: no token left on
    tick 0, the clock still at the start. *)
Definition drained_world : World :=
  {| rateLimiter := bucket_at 0 0 0; clock := 0; trace := [] |}.

(** Seventeen acquisitions at the start of the process: sixteen that
    will not wait and one that will wait five seconds. *)
Definition example_burst : list (Time * Duration) :=
  (repeat (0, 0) 16 ++ [(0, 5 * Second)])%list.

(** *** The log of a call, and sessions of calls *)

Definition is_HTTPDo (e : Event) : bool :=
  match e with
  | HTTPDo _ => true
  | _ => false
  end.

(** The number of requests that have gone out. *)
Definition requests_sent (tr : list Event) : Z :=
  Z.of_nat (List.length (filter is_HTTPDo tr)).

(** The texts the errors of [GetProxyScore] start with, from the
    formats of its five [fmt.Errorf] (the 429 and the service's error
    share one). *)
Definition error_prefixes : list string :=
  [ "Throttled: Can't make query within the next ";
    "Failed preparing request: ";
    "Failed to query API: ";
    "API error: ";
    "Failed to parse API response: " ]%string.

Definition known_error (e : string) : bool :=
  existsb (fun p => String.prefix p e) error_prefixes.

(** The result of a call that was throttled. *)
Definition is_throttled (r : float32 * error) : bool :=
  match snd r with
  | Some e => String.prefix "Throttled: " e
  | None => false
  end.

(** Time the environment spends between two calls (on the network,
    or anywhere else): the clock moves, nothing else does. *)
Definition advance (d : Duration) (w : World) : World :=
  {| rateLimiter := rateLimiter w; clock := clock w + d; trace := trace w |}.

(** One call of a sequential program: who calls, for which address,
    and how long after the call before has returned. *)
Record Step : Type := mkStep {
  pause : Duration;
  who : Client;
  target : string
}.

Section Sessions.
Variable Duration_String : Duration -> string.
Variable url_Parse_error : string -> option string.
Variable httpClient_Do : Request -> Response + string.
Variable json_Decode : string -> response + string.

(** The calls of a program that makes them one after the other, by
    whatever clients: the results in order, and the world at the end. *)
Fixpoint session (steps : list Step) (w : World)
    : list (float32 * error) * World :=
  match steps with
  | [] => ([], w)
  | s :: rest =>
    let r := GetProxyScore Duration_String url_Parse_error httpClient_Do
                           json_Decode (who s) (target s)
                           (advance (pause s) w) in
    let rs := session rest (snd r) in
    (fst r :: fst rs, snd rs)
  end.

(** The session stays within the [horizon]: time does not go back,
    and every call reads the clock and bounds its wait below it. *)
Fixpoint session_ok (t0 : Time) (steps : list Step) (w : World) : Prop :=
  match steps with
  | [] => True
  | s :: rest =>
    0 <= pause s
    /\ clock w + pause s - t0 < horizon
    /\ MaxWait (who s) < horizon
    /\ session_ok t0 rest
         (snd (GetProxyScore Duration_String url_Parse_error httpClient_Do
                             json_Decode (who s) (target s)
                             (advance (pause s) w)))
  end.

(** The same of the clock alone: time does not go back, and every
    call reads the clock below the [horizon]; the clients may be as
    patient as they like. *)
Fixpoint session_in_horizon (t0 : Time) (steps : list Step) (w : World)
    : Prop :=
  match steps with
  | [] => True
  | s :: rest =>
    0 <= pause s
    /\ clock w + pause s - t0 < horizon
    /\ session_in_horizon t0 rest
         (snd (GetProxyScore Duration_String url_Parse_error httpClient_Do
                             json_Decode (who s) (target s)
                             (advance (pause s) w)))
  end.
End Sessions.

(** The tokens the package's bucket holds for a call at [now], once
    the ticks gone by since [latestTick] are credited: negative while
    tokens are promised to callers still asleep. *)
Definition tokens_at (t0 : Time) (tb : ratelimit.Bucket) (now : Time) : Z :=
  Z.min 15 (ratelimit.availableTokens tb
            + (tick_of t0 now - ratelimit.latestTick tb)).

(** *** More of the environment for the examples *)

(** A URL parser that, like [net/url], refuses control characters. *)
Definition is_control (a : ascii) : bool :=
  (Ascii.nat_of_ascii a <? 32)%nat || (Ascii.nat_of_ascii a =? 127)%nat.

Definition example_url_Parse_control (url : string) : option string :=
  if existsb is_control (list_ascii_of_string url)
  then Some "net/url: invalid control character in URL"%string
  else None.

(** An address with a line feed after it. *)
Definition ip_with_newline : string :=
  ("1.2.3.4" ++ String (Ascii.ascii_of_nat 10) EmptyString)%string.

(** A network that is down. *)
Definition unreachable (e : string) (req : Request) : Response + string :=
  inr e.

(** [{"status":"error","message":"Rate limit exceeded"}] *)
Definition body_error_rate_limit : string :=
  ("{" ++ dq ++ "status" ++ dq ++ ":" ++ dq ++ "error" ++ dq ++ ","
       ++ dq ++ "message" ++ dq ++ ":" ++ dq ++ "Rate limit exceeded" ++ dq
       ++ "}")%string.

Definition example_Decode_rate_limit (body : string) : response + string :=
  if String.eqb body body_error_rate_limit then
    inl {| Status := "error"; ErrMsg := "Rate limit exceeded";
           Score := float32_zero |}
  else example_Decode body.

(** A client that will wait up to five seconds. *)
Definition patient_client : Client :=
  NewClient "a@b.com" true Dynamic (5 * Second).

(** A client that will wait as long as a [Duration] can say. *)
Definition most_patient_client : Client :=
  NewClient "a@b.com" true Dynamic maxInt64.

(** Seventeen calls in a row by that client. *)
Definition most_patient_session : list Step :=
  repeat {| pause := 0; who := most_patient_client; target := "1.2.3.4" |} 17.

(** Seventeen calls in a row by the patient client. *)
Definition example_session : list Step :=
  repeat {| pause := 0; who := patient_client; target := "1.2.3.4" |} 17.

(** * Properties *)

(** ** [NewClient] and [getURL] *)

(** C8: [NewClient] copies email, check type and maximum wait into the
    client and chooses the scheme by the [ssl] flag: [https] when it
    is set, [http] when it is not. *)
Theorem NewClient_fields (email : string) (ssl : bool) (check : CheckType)
    (mWait : Duration) :
  let c := NewClient email ssl check mWait in
  Email c = email
  /\ Scheme c = (if ssl then "https" else "http")%string
  /\ Check c = check
  /\ MaxWait c = mWait.
Proof. destruct ssl; repeat split. Qed.

(** Package initialisation does not panic: the bucket is there. *)
Lemma init_rateLimiter_ok (t0 : Time) :
  init_rateLimiter t0 = Some (rateLimiter0 t0).
Proof. reflexivity. Qed.

Lemma Sprintf_getURL (scheme host ip email check : string) :
  fmt.Sprintf "%s://%s?ip=%s&contact=%s&flags=%s&format=json"
              [scheme; host; ip; email; check]
  = (scheme ++ "://" ++ host ++ "?ip=" ++ ip ++ "&contact=" ++ email
       ++ "&flags=" ++ check ++ "&format=json")%string.
Proof. reflexivity. Qed.

(** C3: the URL of the spec's example is the one the spec gives, and in
    general the URL is the scheme, the fixed host and path, and the
    query with IP address, email and check flag put in as they are;
    nothing else of the client (its [MaxWait]) enters it. *)
Theorem getURL_format :
  getURL {| Email := "a@b.com"; Scheme := "http"; Check := Static;
            MaxWait := 0 |} "1.2.3.4"
  = "http://check.getipintel.net/check.php?ip=1.2.3.4&contact=a@b.com&flags=m&format=json"%string
  /\ (forall (c : Client) (ip : string),
        getURL c ip
        = (Scheme c ++ "://check.getipintel.net/check.php?ip=" ++ ip
             ++ "&contact=" ++ Email c ++ "&flags=" ++ Check c
             ++ "&format=json")%string)
  /\ (forall (c c' : Client) (ip : string),
        Scheme c = Scheme c' -> Email c = Email c' -> Check c = Check c' ->
        getURL c ip = getURL c' ip).
Proof.
  split; [reflexivity|]. split.
  - intros c ip. unfold getURL. rewrite Sprintf_getURL. reflexivity.
  - intros c c' ip Hs He Hc. unfold getURL. now rewrite Hs, He, Hc.
Qed.

(** ** [GetProxyScore]: the steps of one call *)

Lemma take_refused (tb : ratelimit.Bucket) (now : Time) (count : Z)
    (maxWait : Duration) :
  snd (fst (ratelimit.take tb now count maxWait)) = false ->
  ratelimit.take tb now count maxWait
  = ((0, false),
     ratelimit.adjustavailableTokens tb (ratelimit.currentTick tb now)).
Proof.
  unfold ratelimit.take.
  destruct (count <=? 0); [discriminate|].
  destruct (0 <=? _); [discriminate|].
  destruct (maxWait <? _); [reflexivity | discriminate].
Qed.

Lemma WaitMaxDuration_refused (tb : ratelimit.Bucket) (now : Time)
    (count : Z) (maxWait : Duration) :
  fst (fst (ratelimit.WaitMaxDuration tb now count maxWait)) = false ->
  ratelimit.WaitMaxDuration tb now count maxWait
  = ((false, now),
     ratelimit.adjustavailableTokens tb (ratelimit.currentTick tb now)).
Proof.
  unfold ratelimit.WaitMaxDuration, ratelimit.TakeMaxDuration.
  intros H.
  destruct (ratelimit.take tb now count maxWait) as [[d ok] tb'] eqn:E.
  simpl in H. subst ok.
  rewrite take_refused in E by (rewrite E; reflexivity).
  now inversion E.
Qed.

Lemma append_empty_r (s : string) : (s ++ "")%string = s.
Proof. induction s as [|a s IH]; simpl; [|rewrite IH]; reflexivity. Qed.

(** Put the operands into the format of an error text. *)
Ltac fmt_text := unfold fmt.Errorf; cbn; rewrite ?append_empty_r.

Lemma Contains_prefix_refl (s : string) : String.prefix s s = true.
Proof.
  induction s as [|a s IH]; [reflexivity|].
  simpl. destruct (Ascii.ascii_dec a a); [exact IH | congruence].
Qed.

Lemma Contains_refl (s : string) : Contains s s = true.
Proof.
  destruct s; [reflexivity|].
  cbn [Contains]. now rewrite Contains_prefix_refl.
Qed.

Lemma Contains_app_l (pre s : string) : Contains (pre ++ s) s = true.
Proof.
  induction pre as [|a pre IH]; simpl.
  - apply Contains_refl.
  - rewrite IH. apply orb_true_r.
Qed.

Section QueryFacts.

Variable Duration_String : Duration -> string.
Variable url_Parse_error : string -> option string.
Variable httpClient_Do : Request -> Response + string.
Variable json_Decode : string -> response + string.

Local Abbreviation query :=
  (GetProxyScore Duration_String url_Parse_error httpClient_Do json_Decode).

(** Open [GetProxyScore] up to the branch the hypotheses select. *)
Ltac step_query :=
  unfold GetProxyScore, http_NewRequest, through_the_bucket, token_granted in *;
  repeat match goal with
  | |- context [ratelimit.WaitMaxDuration ?tb ?t ?n ?m] =>
    let E := fresh "E" in
    destruct (ratelimit.WaitMaxDuration tb t n m) as [[? ?] ?] eqn:E;
    cbn [fst snd negb] in *; subst
  end.

(** A call that is not throttled spends its token and its wait
    whatever happens afterwards: bucket and clock are as the
    acquisition left them. *)
Lemma GetProxyScore_bucket (c : Client) (ip : string) (w : World) :
  rateLimiter (snd (query c ip w)) = rateLimiter (through_the_bucket c w)
  /\ clock (snd (query c ip w)) = clock (through_the_bucket c w).
Proof.
  step_query.
  destruct b; cbn [negb]; [|split; reflexivity].
  destruct (url_Parse_error _); [split; reflexivity|].
  destruct (httpClient_Do _) as [resp|e]; [|split; reflexivity].
  destruct (StatusCode resp =? 429); [split; reflexivity|].
  destruct (json_Decode _) as [r|e]; [|split; reflexivity].
  destruct (negb _); split; reflexivity.
Qed.

(** A call the bucket refuses: the throttling error, at once, with
    nothing sent and nothing taken. *)
Lemma refused_call (c : Client) (ip : string) (w : World) :
  token_granted c w = false ->
  query c ip w
  = ((float32_zero,
      Some ("Throttled: Can't make query within the next "
              ++ Duration_String (MaxWait c))%string),
     {| rateLimiter :=
          ratelimit.adjustavailableTokens
            (rateLimiter w)
            (ratelimit.currentTick (rateLimiter w) (clock w));
        clock := clock w;
        trace := trace w |}).
Proof.
  intros H. unfold token_granted in H.
  apply WaitMaxDuration_refused in H.
  unfold GetProxyScore. rewrite H. fmt_text. reflexivity.
Qed.

(** C2: when the bucket refuses the token the call returns the
    throttling error, with the clock where it was (it did not wait),
    the log where it was (no request went out), and the bucket as the
    passing of time alone leaves it: the tokens of the ticks gone by
    are credited and none is taken. *)
Theorem GetProxyScore_throttled (c : Client) (ip : string) (w : World) :
  token_granted c w = false ->
  let r := query c ip w in
  fst r = (float32_zero,
           Some ("Throttled: Can't make query within the next "
                   ++ Duration_String (MaxWait c))%string)
  /\ trace (snd r) = trace w
  /\ clock (snd r) = clock w
  /\ rateLimiter (snd r)
     = ratelimit.adjustavailableTokens
         (rateLimiter w) (ratelimit.currentTick (rateLimiter w) (clock w)).
Proof.
  intros H r. subst r. rewrite (refused_call c ip w H).
  repeat split.
Qed.

(** C4: an answer with status code 429 gives the error
    [API error: Rate limit exceeded], whatever its body and whatever
    the decoder would make of it; the body is neither decoded nor
    closed, the request is all the call has done. *)
Theorem GetProxyScore_429 (c : Client) (ip : string) (w : World)
    (resp : Response) :
  token_granted c w = true ->
  url_Parse_error (getURL c ip) = None ->
  httpClient_Do (request_of c ip) = inl resp ->
  StatusCode resp = 429 ->
  let r := query c ip w in
  fst r = (float32_zero, Some "API error: Rate limit exceeded"%string)
  /\ trace (snd r) = (trace w ++ [HTTPDo (request_of c ip)])%list.
Proof.
  intros Hok Hurl Hdo Hcode. step_query.
  rewrite Hurl. fold (request_of c ip). rewrite Hdo, Hcode.
  cbn. split; reflexivity.
Qed.

(** C5: an answer with a status code other than 429 whose body
    decodes to status [success] gives the decoded score and no
    error. *)
Theorem GetProxyScore_success (c : Client) (ip : string) (w : World)
    (resp : Response) (respObj : response) :
  token_granted c w = true ->
  url_Parse_error (getURL c ip) = None ->
  httpClient_Do (request_of c ip) = inl resp ->
  StatusCode resp <> 429 ->
  json_Decode (Body resp) = inl respObj ->
  Status respObj = "success"%string ->
  fst (query c ip w) = (Score respObj, None).
Proof.
  intros Hok Hurl Hdo Hcode Hdec Hst. step_query.
  rewrite Hurl. fold (request_of c ip). rewrite Hdo.
  apply Z.eqb_neq in Hcode. rewrite Hcode, Hdec, Hst. reflexivity.
Qed.

(** C6, amended: an answer with a status code other than 429 whose
    body decodes to a status other than [success] gives the error
    [API error: ] followed by the service's message, and the score
    zero. *)
Theorem GetProxyScore_service_error (c : Client) (ip : string) (w : World)
    (resp : Response) (respObj : response) :
  token_granted c w = true ->
  url_Parse_error (getURL c ip) = None ->
  httpClient_Do (request_of c ip) = inl resp ->
  StatusCode resp <> 429 ->
  json_Decode (Body resp) = inl respObj ->
  Status respObj <> "success"%string ->
  fst (query c ip w)
  = (float32_zero, Some ("API error: " ++ ErrMsg respObj)%string)
  /\ Contains ("API error: " ++ ErrMsg respObj) (ErrMsg respObj) = true.
Proof.
  intros Hok Hurl Hdo Hcode Hdec Hst. step_query.
  rewrite Hurl. fold (request_of c ip). rewrite Hdo.
  apply Z.eqb_neq in Hcode. apply String.eqb_neq in Hst.
  rewrite Hcode, Hdec, Hst. fmt_text. split; [reflexivity|].
  apply (Contains_app_l "API error: ").
Qed.

(** C7, amended: for an answer with a status code other than 429 the
    parse error is the decoder's verdict and nothing else.  When
    [Decode] returns an error the call returns
    [Failed to parse API response: ] followed by that error, with the
    score zero, and closes the body like any other call; when
    [Decode] accepts the body, whatever the body is, the call returns
    no parse error. *)
Theorem GetProxyScore_parse_error (c : Client) (ip : string) (w : World)
    (resp : Response) :
  token_granted c w = true ->
  url_Parse_error (getURL c ip) = None ->
  httpClient_Do (request_of c ip) = inl resp ->
  StatusCode resp <> 429 ->
  let r := query c ip w in
  (forall e : string,
      json_Decode (Body resp) = inr e ->
      fst r = (float32_zero,
               Some ("Failed to parse API response: " ++ e)%string)
      /\ trace (snd r)
         = (trace w ++ [HTTPDo (request_of c ip); BodyDecode (Body resp);
                        BodyClose])%list)
  /\ (forall respObj : response,
        json_Decode (Body resp) = inl respObj ->
        forall e : string,
          snd (fst r) = Some e ->
          String.prefix "Failed to parse API response: " e = false).
Proof.
  intros Hok Hurl Hdo Hcode. step_query.
  rewrite Hurl. fold (request_of c ip). rewrite Hdo.
  apply Z.eqb_neq in Hcode. rewrite Hcode.
  split.
  - intros e Hdec. rewrite Hdec. fmt_text.
    split; [reflexivity|].
    now rewrite <- !app_assoc.
  - intros respObj Hdec e. rewrite Hdec.
    destruct (negb (String.eqb (Status respObj) "success"));
      [|discriminate].
    fmt_text. intros He. injection He as <-. reflexivity.
Qed.

(** C10: whenever the call returns an error, whichever of the six it
    is, the score it returns with it is zero. *)
Theorem GetProxyScore_error_score_zero (c : Client) (ip : string)
    (w : World) :
  snd (fst (query c ip w)) <> None ->
  fst (fst (query c ip w)) = float32_zero.
Proof.
  step_query.
  destruct b; cbn [negb]; [|reflexivity].
  destruct (url_Parse_error _); [reflexivity|].
  destruct (httpClient_Do _) as [resp|e]; [|reflexivity].
  destruct (StatusCode resp =? 429); [reflexivity|].
  destruct (json_Decode _) as [r|e]; [|reflexivity].
  destruct (negb _); [reflexivity|].
  cbn. intros H. now contradiction H.
Qed.

(** What [calls] does to bucket and clock is what [waits] does. *)
Lemma calls_waits (n : nat) (c : Client) (ip : string) (w : World) :
  let w' := calls Duration_String url_Parse_error httpClient_Do
                  json_Decode n c ip w in
  (clock w', rateLimiter w') = waits n (MaxWait c) (clock w, rateLimiter w).
Proof.
  revert w. induction n as [|n IH]; intros w; [reflexivity|].
  cbn [calls waits]. cbv zeta in IH. rewrite IH.
  destruct (GetProxyScore_bucket c ip w) as [Hb Hc].
  rewrite Hb, Hc. reflexivity.
Qed.

(** C1, as the code has it: a client with [MaxWait] zero makes
    fifteen calls in a row from the start of the process; they use up
    the burst without waiting.  The sixteenth call does not wait for
    the token of the next tick, four seconds away: it returns the
    throttling error at once, with the clock where it was. *)
Theorem GetProxyScore_MaxWait_zero_throttled :
  let c := NewClient "a@b.com" false Static 0 in
  let w := calls Duration_String url_Parse_error httpClient_Do
                 json_Decode 15 c "1.2.3.4" (boot 0) in
  MaxWait c = 0
  /\ clock w = 0
  /\ ratelimit.availableTokens (rateLimiter w) = 0
  /\ fst (query c "1.2.3.4" w)
     = (float32_zero,
        Some ("Throttled: Can't make query within the next "
                ++ Duration_String 0)%string)
  /\ clock (snd (query c "1.2.3.4" w)) = 0.
Proof.
  intros c w.
  assert (Hw : (clock w, rateLimiter w) = (0, bucket_at 0 0 0)).
  { etransitivity; [exact (calls_waits 15 c "1.2.3.4" (boot 0))|].
    vm_compute. reflexivity. }
  clearbody w. injection Hw as Hc Hb.
  assert (Hno : token_granted c w = false).
  { unfold token_granted. rewrite Hc, Hb. vm_compute. reflexivity. }
  rewrite (refused_call c "1.2.3.4" w Hno).
  cbn [fst snd clock]. rewrite Hc, Hb.
  split; [reflexivity|]. split; [reflexivity|]. split; [reflexivity|].
  split; reflexivity.
Qed.

End QueryFacts.

(** ** The bucket: burst and rate *)

Lemma wrap64_small (x : Z) :
  - 2 ^ 63 <= x < 2 ^ 63 -> wrap64 x = x.
Proof.
  intros H. unfold wrap64.
  rewrite Z.mod_small by (change (2 ^ 64) with (2 ^ 63 + 2 ^ 63); lia).
  lia.
Qed.

Lemma Sub_small (t u : Time) :
  - 2 ^ 63 <= t - u < 2 ^ 63 -> Sub t u = t - u.
Proof.
  intros H. unfold Sub, minInt64, maxInt64.
  destruct (Z.ltb_spec (t - u) (- 2 ^ 63)); [lia|].
  destruct (Z.ltb_spec (2 ^ 63 - 1) (t - u)); [lia|reflexivity].
Qed.

(** The tick an instant lies in, by its two bounds. *)
Lemma tick_of_bounds (t0 T : Time) :
  tick_of t0 T * 4000000000 <= T - t0
  < (tick_of t0 T + 1) * 4000000000.
Proof.
  unfold tick_of. change (4 * Second) with 4000000000.
  pose proof (Z.div_mod (T - t0) 4000000000 ltac:(lia)).
  pose proof (Z.mod_pos_bound (T - t0) 4000000000 ltac:(lia)).
  lia.
Qed.

Lemma tick_of_mono (t0 T T' : Time) :
  T <= T' -> tick_of t0 T <= tick_of t0 T'.
Proof.
  intros H. unfold tick_of. apply Z.div_le_mono; [reflexivity | lia].
Qed.

Lemma currentTick_exact (t0 : Time) (a k : Z) (now : Time) :
  t0 <= now -> now - t0 < horizon ->
  ratelimit.currentTick (bucket_at t0 a k) now = tick_of t0 now.
Proof.
  intros H0 H1. unfold horizon in H1.
  pose proof (tick_of_bounds t0 now) as Hb.
  unfold ratelimit.currentTick, div64. cbn [ratelimit.startTime ratelimit.fillInterval bucket_at].
  rewrite Sub_small by lia.
  rewrite Z.quot_div_nonneg by (change (4 * Second) with 4000000000; lia).
  fold (tick_of t0 now).
  apply wrap64_small. lia.
Qed.

Lemma bucket_inv_shape (t0 t : Time) (tb : ratelimit.Bucket) :
  bucket_inv t0 t tb ->
  tb = bucket_at t0 (ratelimit.availableTokens tb) (ratelimit.latestTick tb).
Proof.
  intros [Hs Hc Hq Hf _ _ _ _]. destruct tb; cbn in *. subst. reflexivity.
Qed.

(** One acquisition of one token on a bucket of the package, in exact
    arithmetic: with [a] the tokens there are on the tick of the call,
    the token is taken at once if [a] is positive; otherwise it is
    promised for the tick on which the bucket will have it, [w] from
    now, and taken if [w] is within [maxWait]. *)
Lemma take_cases (t0 t : Time) (tb : ratelimit.Bucket) (now : Time)
    (maxWait : Duration) :
  bucket_inv t0 t tb ->
  t <= now -> now - t0 < horizon ->
  let k := tick_of t0 now in
  let a := Z.min 15 (ratelimit.availableTokens tb
                     + (k - ratelimit.latestTick tb)) in
  let w := t0 + (k - a + 1) * 4000000000 - now in
  ratelimit.take tb now 1 maxWait
  = if 1 <=? a then ((0, true), bucket_at t0 (a - 1) k)
    else if maxWait <? w then ((0, false), bucket_at t0 a k)
    else ((w, true), bucket_at t0 (a - 1) k).
Proof.
  intros Hinv Ht Hnow k a w.
  rewrite (bucket_inv_shape _ _ _ Hinv).
  destruct Hinv as [_ _ _ _ [Hc0 Hc1] [Hl0 Hl1] Ha Hp].
  set (av := ratelimit.availableTokens tb) in *.
  set (l := ratelimit.latestTick tb) in *.
  change (4 * Second) with 4000000000 in *.
  unfold horizon in *.
  pose proof (tick_of_bounds t0 now) as Hk. fold k in Hk.
  assert (Hlk : l <= k) by nia.
  unfold ratelimit.take. cbn [Z.leb Z.compare].
  rewrite currentTick_exact by (unfold horizon; lia). fold k.
  unfold ratelimit.adjustavailableTokens, ratelimit.set_availableTokens.
  cbn [bucket_at ratelimit.startTime ratelimit.capacity ratelimit.quantum
       ratelimit.fillInterval ratelimit.availableTokens ratelimit.latestTick].
  change (4 * Second) with 4000000000.
  unfold add64, sub64, mul64, neg64, div64.
  destruct (Z.leb_spec 15 av) as [Hfull|Hpart].
  - (* the bucket is full *)
    assert (a = 15) by (unfold a; lia).
    cbn [ratelimit.availableTokens ratelimit.startTime ratelimit.quantum
         ratelimit.fillInterval ratelimit.capacity ratelimit.latestTick].
    rewrite (wrap64_small (av - 1)) by lia.
    destruct (Z.leb_spec 0 (av - 1)); [|lia].
    destruct (Z.leb_spec 1 a); [|lia].
    unfold bucket_at. change (4 * Second) with 4000000000.
    repeat f_equal; lia.
  - (* tokens are credited for the ticks gone by *)
    rewrite (wrap64_small (k - l)) by lia.
    rewrite Z.mul_1_r.
    rewrite (wrap64_small (k - l)) by lia.
    rewrite (wrap64_small (av + (k - l))) by lia.
    assert (Ha' : (if 15 <? av + (k - l) then 15 else av + (k - l)) = a).
    { unfold a. destruct (Z.ltb_spec 15 (av + (k - l))); lia. }
    cbn [ratelimit.availableTokens ratelimit.startTime ratelimit.quantum
         ratelimit.fillInterval ratelimit.capacity ratelimit.latestTick].
    rewrite Ha'.
    assert (Halo : - 2 ^ 62 <= a <= 15) by (unfold a; lia).
    rewrite (wrap64_small (a - 1)) by lia.
    destruct (Z.leb_spec 1 a) as [Hpos|Hnone].
    + destruct (Z.leb_spec 0 (a - 1)); [|lia]. reflexivity.
    + destruct (Z.leb_spec 0 (a - 1)); [lia|].
      assert (Hak : k - a = l - av) by (unfold a; lia).
      rewrite (wrap64_small (- (a - 1))) by lia.
      rewrite (wrap64_small (- (a - 1) + 1)) by lia.
      rewrite (wrap64_small (- (a - 1) + 1 - 1)) by lia.
      rewrite Z.quot_1_r.
      rewrite (wrap64_small (- (a - 1) + 1 - 1)) by lia.
      rewrite (wrap64_small (k + (- (a - 1) + 1 - 1))) by lia.
      replace (k + (- (a - 1) + 1 - 1)) with (k - a + 1) by lia.
      rewrite (wrap64_small ((k - a + 1) * 4000000000)) by lia.
      unfold Add. rewrite Sub_small by lia.
      fold w. reflexivity.
Qed.

Lemma bucket_at_inv (t0 now : Time) (a k : Z) :
  t0 <= now -> now - t0 < horizon ->
  0 <= k -> k * 4000000000 <= now - t0 ->
  a <= 15 -> (k - a) * 4000000000 < 2 ^ 62 ->
  bucket_inv t0 now (bucket_at t0 a k).
Proof.
  intros. constructor; cbn [bucket_at ratelimit.startTime ratelimit.capacity
    ratelimit.quantum ratelimit.fillInterval ratelimit.availableTokens
    ratelimit.latestTick]; change (4 * Second) with 4000000000;
    try reflexivity; try lia.
Qed.

(** The invariant outlives the passing of time... *)
Lemma bucket_inv_later (t0 t t' : Time) (tb : ratelimit.Bucket) :
  bucket_inv t0 t tb -> t <= t' -> t' - t0 < horizon ->
  bucket_inv t0 t' tb.
Proof.
  intros [Hs Hc Hq Hf [Hc0 Hc1] [Hl0 Hl1] Ha Hp] Ht Hh.
  constructor; try assumption; lia.
Qed.

(** ... and every acquisition. *)
Lemma take_inv (t0 t : Time) (tb : ratelimit.Bucket) (now : Time)
    (maxWait : Duration) :
  bucket_inv t0 t tb ->
  t <= now -> now - t0 < horizon -> maxWait < horizon ->
  bucket_inv t0 now (snd (ratelimit.take tb now 1 maxWait)).
Proof.
  intros Hinv Ht Hnow Hmw.
  rewrite (take_cases t0 t tb now maxWait Hinv Ht Hnow).
  destruct Hinv as [_ _ _ _ [Hc0 Hc1] [Hl0 Hl1] Ha Hp].
  change (4 * Second) with 4000000000 in *. unfold horizon in *.
  pose proof (tick_of_bounds t0 now) as Hk.
  set (k := tick_of t0 now) in *.
  set (a := Z.min 15 _).
  assert (Hlk : ratelimit.latestTick tb <= k) by nia.
  destruct (Z.leb_spec 1 a) as [Hpos|Hnone]; cbn [snd].
  - apply bucket_at_inv; unfold horizon; lia.
  - assert (Hak : k - a = ratelimit.latestTick tb - ratelimit.availableTokens tb)
      by (unfold a in *; lia).
    destruct (Z.ltb_spec maxWait (t0 + (k - a + 1) * 4000000000 - now));
      cbn [snd]; apply bucket_at_inv; unfold horizon; lia.
Qed.

Lemma Reachable_inv (t0 t : Time) (tb : ratelimit.Bucket) :
  Reachable t0 t tb -> bucket_inv t0 t tb.
Proof.
  induction 1 as [|t tb now maxWait _ IH Ht Hnow Hmw].
  - apply bucket_at_inv; unfold horizon; lia.
  - now apply (take_inv t0 t).
Qed.

Lemma served_by_cons (T : Time) (o : Outcome) (outs : list Outcome) :
  served_by T (o :: outs)
  = (if released_by T o then 1 else 0) + served_by T outs.
Proof.
  unfold served_by. cbn [filter].
  destruct (released_by T o); cbn [List.length]; lia.
Qed.

Lemma served_by_nonneg (T : Time) (outs : list Outcome) :
  0 <= served_by T outs.
Proof. unfold served_by. lia. Qed.

(** The count behind burst and rate.  With [c] a bound on the tokens
    there are, less the number of the tick, at the next call: by the
    end of tick [n] at most [c + n] callers have been let through. *)
Lemma served_by_bound (t0 T : Time) (reqs : list (Time * Duration)) :
  forall (t : Time) (tb : ratelimit.Bucket) (c : Z),
    bucket_inv t0 t tb ->
    chronological t0 t reqs ->
    Z.min (15 - tick_of t0 t)
          (ratelimit.availableTokens tb - ratelimit.latestTick tb) <= c ->
    served_by T (serve tb reqs) <= Z.max 0 (c + tick_of t0 T).
Proof.
  induction reqs as [|[now maxWait] rest IH]; intros t tb c Hinv Hch Hc.
  - cbn. lia.
  - destruct Hch as (Ht & Hnow & Hmw & Hrest).
    cbn [serve]. rewrite served_by_cons.
    pose proof (take_inv t0 t tb now maxWait Hinv Ht Hnow Hmw) as Hinv'.
    revert Hinv'.
    rewrite (take_cases t0 t tb now maxWait Hinv Ht Hnow).
    pose proof (tick_of_mono t0 t now Ht) as Hmono.
    pose proof (tick_of_bounds t0 now) as Hk.
    pose proof (tick_of_bounds t0 T) as HT.
    set (k := tick_of t0 now) in *.
    set (n := tick_of t0 T) in *.
    set (a := Z.min 15 _).
    assert (Hac : a - k <= c) by (unfold a; lia).
    unfold released_by. cbn [taken asked waited].
    destruct (Z.leb_spec 1 a) as [Hpos|Hnone]; cbn [fst snd andb].
    + intros Hinv'.
      specialize (IH now (bucket_at t0 (a - 1) k) (c - 1) Hinv' Hrest).
      cbn [bucket_at ratelimit.availableTokens ratelimit.latestTick] in IH.
      specialize (IH ltac:(lia)).
      destruct (Z.leb_spec (now + 0) T); [|lia].
      assert (k <= n) by (apply tick_of_mono; lia). lia.
    + destruct (Z.ltb_spec maxWait (t0 + (k - a + 1) * 4000000000 - now));
        cbn [fst snd andb]; intros Hinv'.
      * specialize (IH now (bucket_at t0 a k) c Hinv' Hrest).
        cbn [bucket_at ratelimit.availableTokens ratelimit.latestTick] in IH.
        specialize (IH ltac:(lia)). lia.
      * specialize (IH now (bucket_at t0 (a - 1) k) (c - 1) Hinv' Hrest).
        cbn [bucket_at ratelimit.availableTokens ratelimit.latestTick] in IH.
        specialize (IH ltac:(lia)).
        destruct (Z.leb_spec (now + (t0 + (k - a + 1) * 4000000000 - now)) T);
          [|lia].
        assert (k - a + 1 <= n) by nia. lia.
Qed.

Lemma filter_length_le {A : Type} (p q : A -> bool) (l : list A) :
  Forall (fun x => p x = true -> q x = true) l ->
  (List.length (filter p l) <= List.length (filter q l))%nat.
Proof.
  induction 1 as [|x l Hx _ IH]; [apply le_n|].
  cbn [filter]. destruct (p x).
  - rewrite (Hx eq_refl). cbn [List.length]. now apply le_n_S.
  - destruct (q x); cbn [List.length]; [apply le_S|]; exact IH.
Qed.

Lemma serve_app (pre rest : list (Time * Duration)) :
  forall tb : ratelimit.Bucket,
    serve tb (pre ++ rest)
    = (serve tb pre ++ serve (bucket_after tb pre) rest)%list.
Proof.
  induction pre as [|[now maxWait] pre IH]; intros tb; [reflexivity|].
  cbn [app serve bucket_after]. now rewrite IH.
Qed.

Lemma serve_length (reqs : list (Time * Duration)) :
  forall tb : ratelimit.Bucket,
    List.length (serve tb reqs) = List.length reqs.
Proof.
  induction reqs as [|[now maxWait] rest IH]; intros tb; [reflexivity|].
  cbn [serve List.length]. now rewrite IH.
Qed.

(** What holds of the clock readings holds of the outcomes' [asked]. *)
Lemma serve_asked_all (P : Time -> Prop) (reqs : list (Time * Duration)) :
  forall tb : ratelimit.Bucket,
    Forall (fun r => P (fst r)) reqs ->
    Forall (fun o => P (asked o)) (serve tb reqs).
Proof.
  induction reqs as [|[now maxWait] rest IH]; intros tb Hall;
    [constructor|].
  inversion Hall as [|r l Hr Hl]; subst.
  cbn [serve]. constructor; [exact Hr | now apply IH].
Qed.

(** The invariant holds of the bucket an acquisition in the middle of
    the sequence finds. *)
Lemma bucket_after_inv (t0 : Time) (pre : list (Time * Duration))
    (now : Time) (maxWait : Duration) (rest : list (Time * Duration)) :
  forall (t : Time) (tb : ratelimit.Bucket),
    bucket_inv t0 t tb ->
    chronological t0 t (pre ++ (now, maxWait) :: rest) ->
    exists t', bucket_inv t0 t' (bucket_after tb pre)
               /\ t' <= now /\ now - t0 < horizon.
Proof.
  induction pre as [|[n m] pre IH]; intros t tb Hinv Hch.
  - destruct Hch as (Ht & Hnow & _). exists t.
    split; [exact Hinv | split; assumption].
  - destruct Hch as (Ht & Hn & Hm & Hrest).
    cbn [bucket_after]. apply (IH n); [|exact Hrest].
    now apply (take_inv t0 t).
Qed.

(** C9, amended: on the package's bucket, in whatever state earlier
    calls have left it, take any further acquisitions in the order of
    the mutex.  From the first of them on, the callers let through by
    any time [T] are at most fifteen and one more for every tick of
    four seconds begun since; so are those served at once, which makes
    at most fifteen of them when the acquisitions fall within one
    tick.  And a caller with a positive [maxWait] is served at once
    when a token is there; when none is there it sleeps until the tick
    its token is promised for and is then served if that tick is
    within [maxWait], and is turned away without sleeping if it is
    not. *)
Theorem rateLimiter_burst_and_rate (t0 t : Time) (tb : ratelimit.Bucket)
    (reqs : list (Time * Duration)) :
  Reachable t0 t tb ->
  chronological t0 t reqs ->
  let outs := serve tb reqs in
  (forall now1 T : Time,
      hd_error (map fst reqs) = Some now1 -> now1 <= T ->
      served_by T outs <= 15 + (tick_of t0 T - tick_of t0 now1))
  /\ (forall now1 T : Time,
        hd_error (map fst reqs) = Some now1 ->
        Forall (fun r => fst r <= T) reqs ->
        Z.of_nat (List.length (filter at_once outs))
        <= 15 + (tick_of t0 T - tick_of t0 now1))
  /\ (forall now1 : Time,
        hd_error (map fst reqs) = Some now1 ->
        Forall (fun r => tick_of t0 (fst r) = tick_of t0 now1) reqs ->
        Z.of_nat (List.length (filter at_once outs)) <= 15)
  /\ (forall (pre : list (Time * Duration)) (now : Time)
             (maxWait : Duration) (rest : list (Time * Duration)),
        reqs = (pre ++ (now, maxWait) :: rest)%list ->
        0 < maxWait ->
        let a := tokens_at t0 (bucket_after tb pre) now in
        let wt := t0 + (tick_of t0 now - a + 1) * (4 * Second) - now in
        (a <= 0 -> 0 < wt)
        /\ nth_error outs (List.length pre)
           = Some (if 1 <=? a then
                     {| asked := now; bound := maxWait;
                        waited := 0; taken := true |}
                   else if wt <=? maxWait then
                     {| asked := now; bound := maxWait;
                        waited := wt; taken := true |}
                   else
                     {| asked := now; bound := maxWait;
                        waited := 0; taken := false |})).
Proof.
  intros Hreach Hch outs.
  apply Reachable_inv in Hreach.
  assert (Hrate : forall now1 T : Time,
             hd_error (map fst reqs) = Some now1 -> now1 <= T ->
             served_by T outs <= 15 + (tick_of t0 T - tick_of t0 now1)).
  { intros now1 T Hhd HT. subst outs.
    destruct reqs as [|[now maxWait] rest]; [discriminate|].
    cbn in Hhd. injection Hhd as ->.
    destruct Hch as (Ht & Hnow & Hmw & Hrest).
    pose proof (bucket_inv_later t0 t now1 tb Hreach Ht Hnow) as Hinv.
    pose proof (served_by_bound t0 T ((now1, maxWait) :: rest) now1 tb
                  (15 - tick_of t0 now1) Hinv) as Hb.
    cbn [chronological] in Hb.
    specialize (Hb (conj (Z.le_refl _) (conj Hnow (conj Hmw Hrest)))
                   ltac:(lia)).
    pose proof (tick_of_mono t0 now1 T HT). lia. }
  assert (Hat : forall now1 T : Time,
             hd_error (map fst reqs) = Some now1 ->
             Forall (fun r => fst r <= T) reqs ->
             Z.of_nat (List.length (filter at_once outs))
             <= 15 + (tick_of t0 T - tick_of t0 now1)).
  { intros now1 T Hhd Hall.
    assert (Hle : now1 <= T).
    { destruct reqs as [|[now maxWait] rest]; [discriminate|].
      cbn in Hhd. injection Hhd as <-.
      inversion Hall as [|r l Hr _]. exact Hr. }
    specialize (Hrate now1 T Hhd Hle). unfold served_by in Hrate.
    assert (Hsub : (List.length (filter at_once outs)
                    <= List.length (filter (released_by T) outs))%nat).
    { apply filter_length_le.
      pose proof (serve_asked_all (fun now => now <= T) reqs tb Hall)
        as Hasked.
      fold outs in Hasked.
      revert Hasked. apply Forall_impl. intros o Ho Hone.
      unfold at_once in Hone. unfold released_by.
      apply andb_prop in Hone. destruct Hone as [Htk Hw].
      rewrite Htk. cbn [andb]. apply Z.eqb_eq in Hw. rewrite Hw.
      apply Z.leb_le. lia. }
    lia. }
  split; [exact Hrate|]. split; [exact Hat|]. split.
  - intros now1 Hhd Hsame.
    pose proof (tick_of_bounds t0 now1) as H1.
    set (k := tick_of t0 now1) in *.
    set (T := t0 + (k + 1) * 4000000000 - 1).
    assert (HkT : tick_of t0 T = k).
    { pose proof (tick_of_bounds t0 T) as H2. unfold T in H2 at 2 3. lia. }
    assert (Hall : Forall (fun r => fst r <= T) reqs).
    { revert Hsame. apply Forall_impl. intros r Hr.
      assert (Hx : tick_of t0 (fst r) = k) by exact Hr.
      pose proof (tick_of_bounds t0 (fst r)) as H3. rewrite Hx in H3.
      unfold T. lia. }
    specialize (Hat now1 T Hhd Hall). rewrite HkT in Hat. fold k in Hat.
    lia.
  - intros pre now maxWait rest Hreqs Hpos a wt.
    destruct (bucket_after_inv t0 pre now maxWait rest t tb Hreach
                ltac:(rewrite <- Hreqs; exact Hch))
      as (t' & Hinv' & Ht' & Hnow).
    pose proof (tick_of_bounds t0 now) as Hk.
    change (4 * Second) with 4000000000 in wt.
    split.
    + intros Ha. unfold wt. lia.
    + unfold outs. rewrite Hreqs, serve_app.
      rewrite nth_error_app2 by (rewrite serve_length; apply le_n).
      rewrite serve_length, Nat.sub_diag.
      cbn [serve nth_error].
      rewrite (take_cases t0 t' (bucket_after tb pre) now maxWait
                 Hinv' Ht' Hnow).
      fold (tokens_at t0 (bucket_after tb pre) now). fold a. fold wt.
      destruct (Z.leb_spec 1 a); cbn [fst snd]; [reflexivity|].
      destruct (Z.ltb_spec maxWait wt); destruct (Z.leb_spec wt maxWait);
        cbn [fst snd]; try reflexivity; lia.
Qed.

(** What [MaxWait] zero does on the package's bucket: the call never
    sleeps.  It gets its token if and only if one is there on the tick
    of the call; if none is there it is refused on the spot. *)
Lemma MaxWait_zero_never_waits (t0 t : Time) (c : Client) (w : World) :
  Reachable t0 t (rateLimiter w) ->
  t <= clock w -> clock w - t0 < horizon ->
  MaxWait c = 0 ->
  let a := Z.min 15 (ratelimit.availableTokens (rateLimiter w)
                     + (tick_of t0 (clock w)
                        - ratelimit.latestTick (rateLimiter w))) in
  token_granted c w = (1 <=? a)
  /\ clock (through_the_bucket c w) = clock w.
Proof.
  intros Hreach Ht Hnow Hzero a.
  apply Reachable_inv in Hreach.
  unfold token_granted, through_the_bucket, ratelimit.WaitMaxDuration,
    ratelimit.TakeMaxDuration.
  rewrite Hzero.
  rewrite (take_cases t0 t (rateLimiter w) (clock w) 0 Hreach Ht Hnow).
  fold a.
  pose proof (tick_of_bounds t0 (clock w)) as Hk.
  set (k := tick_of t0 (clock w)) in *.
  destruct (Z.leb_spec 1 a) as [Hpos|Hnone]; cbn; [split; reflexivity|].
  destruct (Z.ltb_spec 0 (t0 + (k - a + 1) * 4000000000 - clock w));
    cbn; [split; reflexivity | lia].
Qed.

(** ** The statements at work on the examples *)

(** A client that would wait one second, on the drained bucket: the
    next token is four seconds away, the call is refused and the world
    is as it was. *)
Lemma GetProxyScore_throttled_witness :
  token_granted (NewClient "a@b.com" false Static Second) drained_world = false
  /\ fst (example_GetProxyScore 200 body_success_half
            (NewClient "a@b.com" false Static Second) "1.2.3.4" drained_world)
     = (float32_zero,
        Some "Throttled: Can't make query within the next 1s"%string)
  /\ snd (example_GetProxyScore 200 body_success_half
            (NewClient "a@b.com" false Static Second) "1.2.3.4" drained_world)
     = drained_world.
Proof.
  assert (H : token_granted (NewClient "a@b.com" false Static Second)
                            drained_world = false) by (vm_compute; reflexivity).
  split; [exact H|].
  pose proof (GetProxyScore_throttled
                example_Duration_String example_url_Parse_error
                (answer 200 body_success_half) example_Decode
                (NewClient "a@b.com" false Static Second) "1.2.3.4"
                drained_world H) as (H1 & H2 & H3 & H4).
  split; [exact H1|].
  vm_compute. reflexivity.
Defined.

(** A 429 answer whose body would decode to a success. *)
Lemma GetProxyScore_429_witness :
  token_granted example_client (boot 0) = true
  /\ fst (example_GetProxyScore 429 body_success_half example_client
            "1.2.3.4" (boot 0))
     = (float32_zero, Some "API error: Rate limit exceeded"%string)
  /\ trace (snd (example_GetProxyScore 429 body_success_half example_client
                   "1.2.3.4" (boot 0)))
     = [HTTPDo (request_of example_client "1.2.3.4")].
Proof.
  assert (H : token_granted example_client (boot 0) = true)
    by (vm_compute; reflexivity).
  split; [exact H|].
  exact (GetProxyScore_429
           example_Duration_String example_url_Parse_error
           (answer 429 body_success_half) example_Decode
           example_client "1.2.3.4" (boot 0)
           {| StatusCode := 429; Body := body_success_half |}
           H eq_refl eq_refl eq_refl).
Defined.

(** The spec's example: status [success], result [0.5]. *)
Lemma GetProxyScore_success_witness :
  token_granted example_client (boot 0) = true
  /\ example_Decode body_success_half
     = inl {| Status := "success"; ErrMsg := ""; Score := float32_half |}
  /\ fst (example_GetProxyScore 200 body_success_half example_client
            "1.2.3.4" (boot 0))
     = (float32_half, None).
Proof.
  assert (H : token_granted example_client (boot 0) = true)
    by (vm_compute; reflexivity).
  assert (Hd : example_Decode body_success_half
               = inl {| Status := "success"; ErrMsg := "";
                        Score := float32_half |})
    by (vm_compute; reflexivity).
  split; [exact H|]. split; [exact Hd|].
  assert (Hcode : 200 <> 429) by discriminate.
  exact (GetProxyScore_success
           example_Duration_String example_url_Parse_error
           (answer 200 body_success_half) example_Decode
           example_client "1.2.3.4" (boot 0)
           {| StatusCode := 200; Body := body_success_half |}
           {| Status := "success"; ErrMsg := ""; Score := float32_half |}
           H eq_refl eq_refl Hcode Hd eq_refl).
Defined.

(** The spec's example: status [error], message [no results]. *)
Lemma GetProxyScore_service_error_witness :
  token_granted example_client (boot 0) = true
  /\ example_Decode body_error_no_results
     = inl {| Status := "error"; ErrMsg := "no results";
              Score := float32_zero |}
  /\ fst (example_GetProxyScore 200 body_error_no_results example_client
            "1.2.3.4" (boot 0))
     = (float32_zero, Some "API error: no results"%string)
  /\ Contains "API error: no results" "no results" = true.
Proof.
  assert (H : token_granted example_client (boot 0) = true)
    by (vm_compute; reflexivity).
  assert (Hd : example_Decode body_error_no_results
               = inl {| Status := "error"; ErrMsg := "no results";
                        Score := float32_zero |})
    by (vm_compute; reflexivity).
  split; [exact H|]. split; [exact Hd|].
  assert (Hcode : 200 <> 429) by discriminate.
  assert (Hst : "error"%string <> "success"%string) by discriminate.
  exact (GetProxyScore_service_error
           example_Duration_String example_url_Parse_error
           (answer 200 body_error_no_results) example_Decode
           example_client "1.2.3.4" (boot 0)
           {| StatusCode := 200; Body := body_error_no_results |}
           {| Status := "error"; ErrMsg := "no results";
              Score := float32_zero |}
           H eq_refl eq_refl Hcode Hd Hst).
Defined.

(** C6 as stated fails: the service answers 429 with a body that
    decodes to status [error] and message [no results]; the call
    returns [API error: Rate limit exceeded], which does not contain
    the message. *)
Lemma message_lost_on_429 : ~ message_reported_whatever_the_code.
Proof.
  intros Hall.
  destruct (Hall example_Duration_String example_url_Parse_error
                 (answer 429 body_error_no_results) example_Decode
                 example_client "1.2.3.4" (boot 0)
                 {| StatusCode := 429; Body := body_error_no_results |}
                 {| Status := "error"; ErrMsg := "no results";
                    Score := float32_zero |}
                 eq_refl eq_refl eq_refl eq_refl ltac:(discriminate))
    as (e & He & Hc).
  vm_compute in He. injection He as <-.
  vm_compute in Hc. discriminate Hc.
Qed.

(** A gateway's HTML page in place of the JSON body: the decoder
    refuses it, and the call returns the parse error. *)
Lemma GetProxyScore_parse_error_witness :
  token_granted example_client (boot 0) = true
  /\ example_Decode body_malformed
     = inr "invalid character '<' looking for beginning of value"%string
  /\ fst (example_GetProxyScore 502 body_malformed example_client
            "1.2.3.4" (boot 0))
     = (float32_zero,
        Some "Failed to parse API response: invalid character '<' looking for beginning of value"%string)
  /\ trace (snd (example_GetProxyScore 502 body_malformed example_client
                   "1.2.3.4" (boot 0)))
     = [HTTPDo (request_of example_client "1.2.3.4");
        BodyDecode body_malformed; BodyClose].
Proof.
  assert (H : token_granted example_client (boot 0) = true)
    by (vm_compute; reflexivity).
  assert (Hd : example_Decode body_malformed
               = inr "invalid character '<' looking for beginning of value"%string)
    by (vm_compute; reflexivity).
  split; [exact H|]. split; [exact Hd|].
  assert (Hcode : 502 <> 429) by discriminate.
  exact (proj1 (GetProxyScore_parse_error
                  example_Duration_String example_url_Parse_error
                  (answer 502 body_malformed) example_Decode
                  example_client "1.2.3.4" (boot 0)
                  {| StatusCode := 502; Body := body_malformed |}
                  H eq_refl eq_refl Hcode)
               "invalid character '<' looking for beginning of value" Hd).
Defined.

(** C7 as stated fails twice over.  The service answers 429 with a
    body that is not JSON: the call returns
    [API error: Rate limit exceeded], not the parse error.  And the
    service answers 200 with the body [null], which is no JSON object:
    the decoder accepts it and leaves the struct at its zero value, so
    the call returns [API error: ] with an empty message, not the
    parse error. *)
Lemma malformed_body_without_parse_error :
  ~ parse_error_whatever_the_code
  /\ ~ parse_error_on_every_malformed_body.
Proof.
  split.
  - intros Hall.
    pose proof (Hall example_Duration_String example_url_Parse_error
                     (answer 429 body_malformed) example_Decode
                     example_client "1.2.3.4" (boot 0)
                     {| StatusCode := 429; Body := body_malformed |}
                     "invalid character '<' looking for beginning of value"
                     eq_refl eq_refl eq_refl eq_refl) as He.
    vm_compute in He. discriminate He.
  - intros Hall.
    destruct (Hall example_Duration_String example_url_Parse_error
                   (answer 200 body_null) example_Decode
                   example_client "1.2.3.4" (boot 0)
                   {| StatusCode := 200; Body := body_null |}
                   eq_refl eq_refl eq_refl eq_refl
                   ltac:(discriminate) eq_refl) as [e He].
    vm_compute in He. discriminate He.
Qed.

(** The service's error comes with the score zero. *)
Lemma GetProxyScore_error_score_zero_witness :
  snd (fst (example_GetProxyScore 200 body_error_no_results example_client
              "1.2.3.4" (boot 0)))
  = Some "API error: no results"%string
  /\ fst (fst (example_GetProxyScore 200 body_error_no_results example_client
                 "1.2.3.4" (boot 0)))
     = float32_zero.
Proof.
  split; [vm_compute; reflexivity|].
  apply (GetProxyScore_error_score_zero
           example_Duration_String example_url_Parse_error
           (answer 200 body_error_no_results) example_Decode
           example_client "1.2.3.4" (boot 0)).
  vm_compute. discriminate.
Defined.

(** Seventeen callers at the start of the process: fifteen are served
    at once and no more before the first tick is over; the
    seventeenth, who will wait five seconds, sleeps the four seconds
    to tick 1 and is served. *)
Lemma rateLimiter_burst_and_rate_witness :
  Reachable 0 0 (rateLimiter0 0)
  /\ chronological 0 0 example_burst
  /\ served_by (4 * Second - 1) (serve (rateLimiter0 0) example_burst) <= 15
  /\ Z.of_nat (List.length (filter at_once
                              (serve (rateLimiter0 0) example_burst))) <= 15
  /\ nth_error (serve (rateLimiter0 0) example_burst) 16
     = Some {| asked := 0; bound := 5 * Second;
               waited := 4 * Second; taken := true |}.
Proof.
  assert (Hch : chronological 0 0 example_burst)
    by (cbn; unfold horizon; repeat split; lia).
  split; [exact (Reach_init 0)|]. split; [exact Hch|].
  destruct (rateLimiter_burst_and_rate 0 0 (rateLimiter0 0) example_burst
              (Reach_init 0) Hch) as (Hrate & _ & Hburst & Hwait).
  split; [|split].
  - exact (Hrate 0 (4 * Second - 1) eq_refl ltac:(vm_compute; discriminate)).
  - apply (Hburst 0 eq_refl).
    unfold example_burst. cbn [repeat app].
    repeat constructor.
  - exact (proj2 (Hwait (repeat (0, 0) 16) 0 (5 * Second) [] eq_refl eq_refl)).
Defined.

(** C9 as stated fails: of sixteen acquisitions in four seconds, four
    times faster than the bucket refills, all sixteen are served at
    once, the sixteenth with the token of tick 1. *)
Lemma sixteen_served_at_once : ~ at_most_fifteen_at_once.
Proof.
  intros Hall.
  assert (Hch : chronological 0 0 sixteen_in_four_seconds)
    by (cbn; unfold horizon; repeat split; lia).
  assert (Hle : Forall (fun r : Time * Duration => fst r <= 4 * Second)
                       sixteen_in_four_seconds).
  { unfold sixteen_in_four_seconds. cbn [repeat app].
    repeat constructor; vm_compute; discriminate. }
  pose proof (Hall 0 0 (rateLimiter0 0) sixteen_in_four_seconds 0
                   (4 * Second) (Reach_init 0) Hch eq_refl Hle
                   ltac:(vm_compute; reflexivity)) as H.
  vm_compute in H. apply H. reflexivity.
Qed.

(** * Further properties of [GetProxyScore] *)

Lemma prefix_app (p x : string) : String.prefix p (p ++ x) = true.
Proof.
  induction p as [|a p IH].
  - destruct x; reflexivity.
  - cbn. destruct (Ascii.ascii_dec a a); [exact IH | congruence].
Qed.

Lemma known_error_intro (p x : string) :
  In p error_prefixes -> known_error (p ++ x) = true.
Proof.
  intros Hin. unfold known_error. apply existsb_exists.
  exists p. split; [exact Hin | apply prefix_app].
Qed.

Section QueryOutcomes.

Variable Duration_String : Duration -> string.
Variable url_Parse_error : string -> option string.
Variable httpClient_Do : Request -> Response + string.
Variable json_Decode : string -> response + string.

Local Abbreviation query :=
  (GetProxyScore Duration_String url_Parse_error httpClient_Do json_Decode).

(** Close a case of the analysis below: the branch conditions are
    hypotheses or hold by computation, the error text by formatting. *)
Ltac close_case :=
  repeat split; try assumption; try reflexivity;
  try (fmt_text; reflexivity).

(** The seven ways through a call, each with the branch conditions
    that select it, the result, and the world it leaves. *)
Lemma GetProxyScore_cases (c : Client) (ip : string) (w : World) :
  let r := query c ip w in
  let w1 := through_the_bucket c w in
  let sent := emit (HTTPDo (request_of c ip)) w1 in
  (token_granted c w = false
   /\ r = ((float32_zero,
            Some ("Throttled: Can't make query within the next "
                    ++ Duration_String (MaxWait c))%string), w1))
  \/ (token_granted c w = true
      /\ exists e, url_Parse_error (getURL c ip) = Some e
         /\ r = ((float32_zero,
                  Some ("Failed preparing request: " ++ e)%string), w1))
  \/ (token_granted c w = true
      /\ url_Parse_error (getURL c ip) = None
      /\ exists e, httpClient_Do (request_of c ip) = inr e
         /\ r = ((float32_zero,
                  Some ("Failed to query API: " ++ e)%string), sent))
  \/ (token_granted c w = true
      /\ url_Parse_error (getURL c ip) = None
      /\ exists resp, httpClient_Do (request_of c ip) = inl resp
         /\ StatusCode resp = 429
         /\ r = ((float32_zero,
                  Some "API error: Rate limit exceeded"%string), sent))
  \/ (token_granted c w = true
      /\ url_Parse_error (getURL c ip) = None
      /\ exists resp e, httpClient_Do (request_of c ip) = inl resp
         /\ StatusCode resp <> 429
         /\ json_Decode (Body resp) = inr e
         /\ r = ((float32_zero,
                  Some ("Failed to parse API response: " ++ e)%string),
                 emit BodyClose (emit (BodyDecode (Body resp)) sent)))
  \/ (token_granted c w = true
      /\ url_Parse_error (getURL c ip) = None
      /\ exists resp respObj, httpClient_Do (request_of c ip) = inl resp
         /\ StatusCode resp <> 429
         /\ json_Decode (Body resp) = inl respObj
         /\ Status respObj <> "success"%string
         /\ r = ((float32_zero,
                  Some ("API error: " ++ ErrMsg respObj)%string),
                 emit BodyClose (emit (BodyDecode (Body resp)) sent)))
  \/ (token_granted c w = true
      /\ url_Parse_error (getURL c ip) = None
      /\ exists resp respObj, httpClient_Do (request_of c ip) = inl resp
         /\ StatusCode resp <> 429
         /\ json_Decode (Body resp) = inl respObj
         /\ Status respObj = "success"%string
         /\ r = ((Score respObj, None),
                 emit BodyClose (emit (BodyDecode (Body resp)) sent))).
Proof.
  unfold GetProxyScore, http_NewRequest, through_the_bucket, token_granted.
  destruct (ratelimit.WaitMaxDuration _ _ _ _) as [[ok t] tb].
  cbn [fst snd].
  destruct ok; cbn [negb]; [right | left; close_case].
  destruct (url_Parse_error (getURL c ip)) as [e|] eqn:Eurl;
    [left; split; [reflexivity | exists e; close_case] | right].
  fold (request_of c ip).
  destruct (httpClient_Do (request_of c ip)) as [resp|e] eqn:Edo;
    [right | left; do 2 (split; [reflexivity|]); exists e; close_case].
  destruct (Z.eqb_spec (StatusCode resp) 429) as [Hc|Hc];
    [left; do 2 (split; [reflexivity|]); exists resp; close_case | right].
  destruct (json_Decode (Body resp)) as [respObj|e] eqn:Edec;
    [right | left; do 2 (split; [reflexivity|]); exists resp, e; close_case].
  destruct (String.eqb_spec (Status respObj) "success") as [Hs|Hs];
    cbn [negb]; [right | left];
    do 2 (split; [reflexivity|]); exists resp, respObj; close_case.
Qed.


(** Take the analysis apart and drop the cases the hypotheses rule out. *)
Ltac by_cases c ip w :=
  let H := fresh "Hcases" in
  pose proof (GetProxyScore_cases c ip w) as H; cbv zeta in H;
  repeat match type of H with
         | _ \/ _ => destruct H as [H|H]
         end;
  repeat match goal with
         | H : _ /\ _ |- _ => destruct H
         | H : exists _, _ |- _ => destruct H
         end;
  try congruence.

(** X1: a token once acquired stays spent.  Whatever becomes of the
    call afterwards (the URL refused, the network down, a 429, a body
    that does not decode, an error of the service), bucket and clock
    are as the acquisition left them, and the log has only grown. *)
Theorem GetProxyScore_token_not_refunded (c : Client) (ip : string)
    (w : World) :
  let w' := snd (query c ip w) in
  rateLimiter w' = rateLimiter (through_the_bucket c w)
  /\ clock w' = clock (through_the_bucket c w)
  /\ exists evs, trace w' = (trace w ++ evs)%list.
Proof.
  by_cases c ip w;
    match goal with
    | H : query c ip w = _ |- _ => rewrite H
    end;
    cbn [snd emit rateLimiter clock trace through_the_bucket];
    (split; [reflexivity|]); (split; [reflexivity|]);
    rewrite <- ?app_assoc; eexists; try reflexivity.
  symmetry. apply app_nil_r.
  symmetry. apply app_nil_r.
Qed.

(** X2: what a call does outside.  It sends nothing (throttled, or
    the URL refused), or it sends one request and leaves the body
    alone (transport error, or a 429), or it sends one request,
    decodes the body once and closes it.  The request is a [GET] of
    [getURL] with the package's [User-Agent] as its only header. *)
Theorem GetProxyScore_log (c : Client) (ip : string) (w : World) :
  let tr := trace (snd (query c ip w)) in
  request_of c ip
  = {| Method := "GET"; URL := getURL c ip;
       Header := [("User-Agent",
                   "go-ipintel/0.2.0 (github.com/janeczku/go-ipintel)")]%string |}
  /\ (tr = trace w
      \/ tr = (trace w ++ [HTTPDo (request_of c ip)])%list
      \/ exists resp,
           httpClient_Do (request_of c ip) = inl resp
           /\ tr = (trace w ++ [HTTPDo (request_of c ip);
                                BodyDecode (Body resp); BodyClose])%list)
  /\ requests_sent tr <= requests_sent (trace w) + 1.
Proof.
  cbv zeta. split; [reflexivity|].
  assert (Hlen : forall l : list Event,
             requests_sent l <= requests_sent l + 1) by (intros; lia).
  assert (Hone : forall (l : list Event) (e : Event) (rest : list Event),
             forallb (fun x => negb (is_HTTPDo x)) rest = true ->
             requests_sent (l ++ e :: rest) <= requests_sent l + 1).
  { intros l e rest Hrest. unfold requests_sent.
    rewrite filter_app, length_app. cbn [filter].
    assert (Hnil : filter is_HTTPDo rest = []).
    { induction rest as [|x rest IH]; [reflexivity|].
      cbn in Hrest. apply andb_prop in Hrest. destruct Hrest as [Hx Hr].
      cbn [filter]. destruct (is_HTTPDo x); [discriminate|]. now apply IH. }
    rewrite Hnil. destruct (is_HTTPDo e); cbn [List.length]; lia. }
  by_cases c ip w;
    match goal with
    | H : query c ip w = _ |- _ => rewrite H
    end;
    cbn [snd emit rateLimiter clock trace through_the_bucket];
    rewrite <- ?app_assoc; cbn [app].
  - split; [left; reflexivity | apply Hlen].
  - split; [left; reflexivity | apply Hlen].
  - split; [right; left; reflexivity | now apply Hone].
  - split; [right; left; reflexivity | now apply Hone].
  - split; [right; right; eexists; split; [eassumption | reflexivity]
           | now apply Hone].
  - split; [right; right; eexists; split; [eassumption | reflexivity]
           | now apply Hone].
  - split; [right; right; eexists; split; [eassumption | reflexivity]
           | now apply Hone].
Qed.

(** X3: when [http.NewRequest] refuses the URL the call returns
    [Failed preparing request: ] with the parser's error and the score
    zero; nothing is sent, and the token is spent all the same. *)
Theorem GetProxyScore_request_refused (c : Client) (ip : string) (w : World)
    (e : string) :
  token_granted c w = true ->
  url_Parse_error (getURL c ip) = Some e ->
  query c ip w
  = ((float32_zero, Some ("Failed preparing request: " ++ e)%string),
     through_the_bucket c w).
Proof.
  intros Hok Hurl. by_cases c ip w.
Qed.

(** X4: when the transport fails the call returns
    [Failed to query API: ] with the transport's error and the score
    zero; the one request has gone out, no body is decoded or closed,
    and the token is spent. *)
Theorem GetProxyScore_transport_failure (c : Client) (ip : string)
    (w : World) (e : string) :
  token_granted c w = true ->
  url_Parse_error (getURL c ip) = None ->
  httpClient_Do (request_of c ip) = inr e ->
  query c ip w
  = ((float32_zero, Some ("Failed to query API: " ++ e)%string),
     emit (HTTPDo (request_of c ip)) (through_the_bucket c w)).
Proof.
  intros Hok Hurl Hdo. by_cases c ip w.
Qed.

(** X5: the errors of a call are of five kinds and no other: the text
    of every error it returns starts with one of the five prefixes of
    its formats. *)
Theorem GetProxyScore_error_kinds (c : Client) (ip : string) (w : World)
    (e : string) :
  snd (fst (query c ip w)) = Some e ->
  known_error e = true.
Proof.
  intros He. by_cases c ip w;
    match goal with
    | H : query c ip w = _ |- _ => rewrite H in He
    end;
    cbn [fst snd] in He; try discriminate;
    injection He as <-;
    first [ apply (known_error_intro
                     "Throttled: Can't make query within the next ")
          | apply (known_error_intro "Failed preparing request: ")
          | apply (known_error_intro "Failed to query API: ")
          | apply (known_error_intro "API error: ")
          | apply (known_error_intro "Failed to parse API response: ") ];
    cbn; tauto.
Qed.

(** X6: a nil error is never returned by accident: the call had its
    token, the URL was accepted, the server answered with a status
    code other than 429, the body decoded, its status was the literal
    [success], and the score returned is the decoded one. *)
Theorem GetProxyScore_nil_error_sound (c : Client) (ip : string) (w : World) :
  snd (fst (query c ip w)) = None ->
  token_granted c w = true
  /\ url_Parse_error (getURL c ip) = None
  /\ exists resp respObj,
       httpClient_Do (request_of c ip) = inl resp
       /\ StatusCode resp <> 429
       /\ json_Decode (Body resp) = inl respObj
       /\ Status respObj = "success"%string
       /\ fst (fst (query c ip w)) = Score respObj.
Proof.
  intros He. by_cases c ip w;
    match goal with
    | H : query c ip w = _ |- _ => rewrite H in He |- *
    end;
    cbn [fst snd] in He |- *; try discriminate.
  repeat split; try assumption. eexists. eexists. repeat split; eassumption.
Qed.


(** *** Calls on the package's bucket *)

(** What a call does to bucket and clock, in exact arithmetic: with
    [a] tokens there for it, it takes one at once, or is refused on
    the spot, or is promised one and sleeps until its tick. *)
Lemma GetProxyScore_on_bucket (t0 t : Time) (c : Client) (ip : string)
    (w : World) :
  bucket_inv t0 t (rateLimiter w) ->
  t <= clock w -> clock w - t0 < horizon ->
  let k := tick_of t0 (clock w) in
  let a := tokens_at t0 (rateLimiter w) (clock w) in
  let wt := t0 + (k - a + 1) * 4000000000 - clock w in
  let w' := snd (query c ip w) in
  (1 <= a /\ token_granted c w = true
   /\ rateLimiter w' = bucket_at t0 (a - 1) k /\ clock w' = clock w)
  \/ (a <= 0 /\ MaxWait c < wt /\ token_granted c w = false
      /\ rateLimiter w' = bucket_at t0 a k /\ clock w' = clock w)
  \/ (a <= 0 /\ 0 < wt <= MaxWait c /\ token_granted c w = true
      /\ rateLimiter w' = bucket_at t0 (a - 1) k
      /\ clock w' = clock w + wt).
Proof.
  intros Hinv Ht Hnow k a wt w'.
  destruct (GetProxyScore_bucket Duration_String url_Parse_error
              httpClient_Do json_Decode c ip w) as [Hb Hc].
  fold w' in Hb, Hc. rewrite Hb, Hc.
  unfold token_granted, through_the_bucket, ratelimit.WaitMaxDuration,
    ratelimit.TakeMaxDuration.
  rewrite (take_cases t0 t (rateLimiter w) (clock w) (MaxWait c) Hinv Ht Hnow).
  unfold tokens_at in a. fold k in a. fold k. fold a. fold wt.
  pose proof (tick_of_bounds t0 (clock w)) as Hk. fold k in Hk.
  destruct (Z.leb_spec 1 a) as [Hpos|Hnone].
  - left. cbn [fst snd rateLimiter clock Z.ltb Z.compare].
    repeat split; try reflexivity; lia.
  - right. assert (0 < wt) by (unfold wt; lia).
    destruct (Z.ltb_spec (MaxWait c) wt) as [Hfar|Hnear].
    + left. cbn [fst snd rateLimiter clock Z.ltb Z.compare].
      repeat split; try reflexivity; lia.
    + right. cbn [fst snd rateLimiter clock].
      destruct (Z.ltb_spec 0 wt); [|lia].
      unfold Add. repeat split; try reflexivity; lia.
Qed.

(** X9: a [MaxWait] of zero or less is a call that never sleeps: on
    the package's bucket it gets its token if and only if one is there
    on the tick of the call, and returns with the clock where it was. *)
Theorem GetProxyScore_nonpositive_MaxWait (t0 t : Time) (c : Client)
    (ip : string) (w : World) :
  Reachable t0 t (rateLimiter w) ->
  t <= clock w -> clock w - t0 < horizon ->
  MaxWait c <= 0 ->
  token_granted c w = (1 <=? tokens_at t0 (rateLimiter w) (clock w))
  /\ clock (snd (query c ip w)) = clock w.
Proof.
  intros Hreach Ht Hnow Hmw. apply Reachable_inv in Hreach.
  destruct (GetProxyScore_on_bucket t0 t c ip w Hreach Ht Hnow)
    as [(Ha & Hg & _ & Hc) | [(Ha & _ & Hg & _ & Hc) | (_ & Hwt & _)]].
  - rewrite Hg, Hc. split; [|reflexivity].
    symmetry. now apply Z.leb_le.
  - rewrite Hg, Hc. split; [|reflexivity].
    symmetry. apply Z.leb_gt. lia.
  - lia.
Qed.

(** X10: a call never sleeps longer than its [MaxWait], and when it
    has slept it wakes exactly at the start of a tick of the bucket. *)
Theorem GetProxyScore_sleeps_within_MaxWait (t0 t : Time) (c : Client)
    (ip : string) (w : World) :
  Reachable t0 t (rateLimiter w) ->
  t <= clock w -> clock w - t0 < horizon ->
  let slept := clock (snd (query c ip w)) - clock w in
  0 <= slept <= Z.max 0 (MaxWait c)
  /\ (0 < slept ->
      token_granted c w = true
      /\ exists k, clock (snd (query c ip w)) = t0 + k * (4 * Second)).
Proof.
  intros Hreach Ht Hnow slept. apply Reachable_inv in Hreach. subst slept.
  destruct (GetProxyScore_on_bucket t0 t c ip w Hreach Ht Hnow)
    as [(_ & _ & _ & Hc) | [(_ & _ & _ & _ & Hc) | (_ & Hwt & Hg & _ & Hc)]];
    rewrite Hc.
  - split; [lia|]. intros; lia.
  - split; [lia|]. intros; lia.
  - split; [lia|]. intros _. split; [exact Hg|].
    eexists. change (4 * Second) with 4000000000. 
    match goal with
    | |- _ + (_ + ?x * _ - _) = _ => instantiate (1 := x)
    end. lia.
Qed.

(** X11: a call takes one token or none.  On the package's bucket a
    call that is not throttled leaves exactly one token fewer than
    there were for it, whatever becomes of the request, and a
    throttled call leaves them all. *)
Theorem GetProxyScore_takes_one_token (t0 t : Time) (c : Client)
    (ip : string) (w : World) :
  Reachable t0 t (rateLimiter w) ->
  t <= clock w -> clock w - t0 < horizon ->
  rateLimiter (snd (query c ip w))
  = bucket_at t0
      (tokens_at t0 (rateLimiter w) (clock w)
       - (if token_granted c w then 1 else 0))
      (tick_of t0 (clock w)).
Proof.
  intros Hreach Ht Hnow. apply Reachable_inv in Hreach.
  destruct (GetProxyScore_on_bucket t0 t c ip w Hreach Ht Hnow)
    as [(_ & Hg & Hb & _) | [(_ & _ & Hg & Hb & _) | (_ & _ & Hg & Hb & _)]];
    rewrite Hg, Hb; try reflexivity.
  now rewrite Z.sub_0_r.
Qed.



(** X14: a throttled call can be repeated.  On the package's bucket a
    call that is refused leaves a world in which the same call, made
    again before the clock has moved, is refused in the same words and
    leaves the world as it found it: asking again costs nothing. *)
Theorem throttled_call_repeatable (t0 t : Time) (c : Client) (ip : string)
    (w : World) :
  Reachable t0 t (rateLimiter w) ->
  t <= clock w -> clock w - t0 < horizon -> MaxWait c < horizon ->
  token_granted c w = false ->
  let r := query c ip w in
  query c ip (snd r) = (fst r, snd r).
Proof.
  intros Hreach Ht Hnow Hmw Hno r. apply Reachable_inv in Hreach.
  assert (Hr : r = ((float32_zero,
                     Some ("Throttled: Can't make query within the next "
                             ++ Duration_String (MaxWait c))%string),
                    through_the_bucket c w)).
  { subst r. by_cases c ip w. }
  destruct (GetProxyScore_on_bucket t0 t c ip w Hreach Ht Hnow)
    as [(_ & Hg & _) | [(Ha & Hwt & _ & Hb & Hc) | (_ & _ & Hg & _)]];
    try congruence.
  fold r in Hb, Hc.
  set (w' := snd r) in *.
  assert (Htr : trace w' = trace w) by (unfold w'; rewrite Hr; reflexivity).
  pose proof (tick_of_bounds t0 (clock w)) as Hk.
  set (k := tick_of t0 (clock w)) in *.
  set (a := tokens_at t0 (rateLimiter w) (clock w)) in *.
  assert (Hinv' : bucket_inv t0 (clock w) (rateLimiter w')).
  { unfold w'. rewrite Hr. cbn [snd through_the_bucket rateLimiter].
    unfold ratelimit.WaitMaxDuration, ratelimit.TakeMaxDuration.
    destruct (ratelimit.take (rateLimiter w) (clock w) 1 (MaxWait c))
      as [[d ok] tb] eqn:E.
    cbn [snd]. change tb with (snd ((d, ok), tb)). rewrite <- E.
    now apply (take_inv t0 t). }
  assert (Ha' : tokens_at t0 (rateLimiter w') (clock w') = a).
  { rewrite Hb, Hc. unfold tokens_at.
    cbn [bucket_at ratelimit.availableTokens ratelimit.latestTick].
    fold k. unfold a, tokens_at. fold k. lia. }
  assert (Hno' : token_granted c w' = false).
  { destruct (GetProxyScore_on_bucket t0 (clock w) c ip w' Hinv'
                ltac:(lia) ltac:(lia))
      as [(Ha1 & _) | [(_ & _ & Hg' & _) | (_ & Hwt' & _)]].
    - rewrite Ha' in Ha1. lia.
    - exact Hg'.
    - rewrite Ha', Hc in Hwt'. fold k in Hwt'. lia. }
  assert (Hsame : through_the_bucket c w' = w').
  { destruct (GetProxyScore_on_bucket t0 (clock w) c ip w' Hinv'
                ltac:(lia) ltac:(lia))
      as [(_ & Hg' & _) | [(_ & _ & _ & Hb' & Hc') | (_ & _ & Hg' & _)]];
      try congruence.
    destruct (GetProxyScore_bucket Duration_String url_Parse_error
                httpClient_Do json_Decode c ip w') as [Hb2 Hc2].
    rewrite Hb2 in Hb'. rewrite Hc2 in Hc'.
    rewrite Ha', Hc in Hb'. fold k in Hb'.
    destruct w' as [tb' clk' tr'].
    unfold through_the_bucket in *. cbn [rateLimiter clock trace] in *.
    rewrite Hb', Hc'. congruence. }
  by_cases c ip w'.
  match goal with
  | H : query c ip w' = _ |- _ => rewrite H
  end.
  rewrite Hsame, Hr. reflexivity.
Qed.

(** *** Sessions *)

Lemma requests_sent_emit (e : Event) (w : World) :
  requests_sent (trace (emit e w))
  = requests_sent (trace w) + (if is_HTTPDo e then 1 else 0).
Proof.
  unfold requests_sent. cbn [emit trace].
  rewrite filter_app, length_app. cbn [filter].
  destruct (is_HTTPDo e); cbn [List.length]; lia.
Qed.

(** A call sends a request only if it has its token, and then one. *)
Lemma GetProxyScore_sent (c : Client) (ip : string) (w : World) :
  requests_sent (trace (snd (query c ip w)))
  <= requests_sent (trace w) + (if token_granted c w then 1 else 0).
Proof.
  by_cases c ip w;
    match goal with
    | H : query c ip w = _, G : token_granted c w = _ |- _ =>
      rewrite H, G
    end;
    cbn [snd]; rewrite ?requests_sent_emit;
    cbn [is_HTTPDo through_the_bucket trace]; lia.
Qed.

(** A call that has its token does not return the throttling error. *)
Lemma granted_not_throttled (c : Client) (ip : string) (w : World) :
  token_granted c w = true -> is_throttled (fst (query c ip w)) = false.
Proof.
  intros Hok. by_cases c ip w;
    match goal with
    | H : query c ip w = _ |- _ => rewrite H
    end; reflexivity.
Qed.

Local Abbreviation run :=
  (session Duration_String url_Parse_error httpClient_Do json_Decode).
Local Abbreviation run_ok :=
  (session_ok Duration_String url_Parse_error httpClient_Do json_Decode).

(** The potential argument of the bucket, for calls: with [c] a bound
    on the tokens there are less the number of the tick, a session
    that ends in tick [n] has sent at most [c + n] requests. *)
Lemma session_sent_bound (t0 : Time) (steps : list Step) :
  forall (w : World) (t : Time) (c : Z),
    bucket_inv t0 t (rateLimiter w) ->
    t <= clock w ->
    run_ok t0 steps w ->
    Z.min (15 - tick_of t0 t)
          (ratelimit.availableTokens (rateLimiter w)
           - ratelimit.latestTick (rateLimiter w)) <= c ->
    clock w <= clock (snd (run steps w))
    /\ requests_sent (trace (snd (run steps w))) - requests_sent (trace w)
       <= Z.max 0 (c + tick_of t0 (clock (snd (run steps w)))).
Proof.
  induction steps as [|s rest IH]; intros w t c Hinv Ht Hok Hc.
  - cbn [session snd]. lia.
  - destruct Hok as (Hp & Hnow & Hmw & Hrest).
    cbn [session snd].
    set (wa := advance (pause s) w) in *.
    assert (Hta : t <= clock wa) by (cbn; lia).
    pose proof (GetProxyScore_on_bucket t0 t (who s) (target s) wa
                  Hinv Hta Hnow) as Hcall.
    pose proof (GetProxyScore_sent (who s) (target s) wa) as Hsent.
    cbv zeta in Hcall.
    change (rateLimiter wa) with (rateLimiter w) in Hcall.
    set (w' := snd (query (who s) (target s) wa)) in *.
    pose proof (tick_of_bounds t0 (clock wa)) as Hk.
    pose proof (tick_of_mono t0 t (clock wa) Hta) as Hmono.
    set (k := tick_of t0 (clock wa)) in *.
    unfold tokens_at in Hcall. fold k in Hcall.
    set (a := Z.min 15 _) in *.
    assert (Hac : a - k <= c) by (unfold a; lia).
    destruct Hinv as [_ _ _ _ [Hc0 Hc1] [Hl0 Hl1] Ha Hp'].
    change (4 * Second) with 4000000000 in *.
    assert (Hclk : clock wa = clock w + pause s) by reflexivity.
    assert (Htr : trace wa = trace w) by reflexivity.
    rewrite Htr in Hsent.
    assert (Hlk : ratelimit.latestTick (rateLimiter w) <= k).
    { unfold horizon in *. nia. }
    destruct Hcall as [(Ha1 & Hg & Hb & Hcl)
                      | [(Ha0 & Hwt & Hg & Hb & Hcl)
                        | (Ha0 & Hwt & Hg & Hb & Hcl)]];
      rewrite Hg in Hsent.
    + assert (Hinv' : bucket_inv t0 (clock wa) (rateLimiter w')).
      { rewrite Hb. apply bucket_at_inv; unfold horizon in *;
          unfold a in *; lia. }
      destruct (IH w' (clock wa) (c - 1) Hinv' ltac:(lia) Hrest) as [Hm Hb'].
      { rewrite Hb. cbn [bucket_at ratelimit.availableTokens
                                  ratelimit.latestTick]. lia. }
      pose proof (tick_of_mono t0 (clock wa) _ ltac:(rewrite <- Hcl; exact Hm)).
      fold k in H. split; lia.
    + assert (Hinv' : bucket_inv t0 (clock wa) (rateLimiter w')).
      { rewrite Hb. apply bucket_at_inv; unfold horizon in *;
          unfold a in *; lia. }
      destruct (IH w' (clock wa) c Hinv' ltac:(lia) Hrest) as [Hm Hb'].
      { rewrite Hb. cbn [bucket_at ratelimit.availableTokens
                                  ratelimit.latestTick]. lia. }
      split; lia.
    + assert (Hinv' : bucket_inv t0 (clock wa) (rateLimiter w')).
      { rewrite Hb. apply bucket_at_inv; unfold horizon in *;
          unfold a in *; lia. }
      destruct (IH w' (clock wa) (c - 1) Hinv' ltac:(lia) Hrest) as [Hm Hb'].
      { rewrite Hb. cbn [bucket_at ratelimit.availableTokens
                                  ratelimit.latestTick]. lia. }
      pose proof (tick_of_bounds t0 (clock (snd (run rest w')))) as HF.
      assert (k - a + 1 <= tick_of t0 (clock (snd (run rest w')))) by nia.
      split; lia.
Qed.

(** X12: the throttle end to end.  A program that makes its calls one
    after the other, through whatever clients and with whatever
    answers from the network, has sent by the end at most fifteen
    requests and one more for every tick of four seconds begun since
    its first step. *)
Theorem session_requests_bounded (t0 t : Time) (steps : list Step)
    (w : World) :
  Reachable t0 t (rateLimiter w) ->
  t <= clock w -> clock w - t0 < horizon ->
  run_ok t0 steps w ->
  let w' := snd (run steps w) in
  requests_sent (trace w') - requests_sent (trace w)
  <= 15 + (tick_of t0 (clock w') - tick_of t0 (clock w)).
Proof.
  intros Hreach Ht Hnow Hok w'. apply Reachable_inv in Hreach.
  pose proof (bucket_inv_later t0 t (clock w) _ Hreach Ht Hnow) as Hinv.
  destruct (session_sent_bound t0 steps w (clock w)
              (15 - tick_of t0 (clock w)) Hinv (Z.le_refl _) Hok
              ltac:(lia)) as [Hm Hb].
  fold w' in Hm, Hb.
  pose proof (tick_of_mono t0 (clock w) (clock w') Hm). lia.
Qed.

Lemma tick_of_start (t0 k : Z) : tick_of t0 (t0 + k * 4000000000) = k.
Proof.
  pose proof (tick_of_bounds t0 (t0 + k * 4000000000)). lia.
Qed.

Local Abbreviation run_in_horizon :=
  (session_in_horizon Duration_String url_Parse_error httpClient_Do
                      json_Decode).

Lemma session_never_throttled_from (t0 : Time) (steps : list Step) :
  forall (w : World) (t : Time),
    bucket_inv t0 t (rateLimiter w) ->
    t <= clock w ->
    run_in_horizon t0 steps w ->
    Forall (fun s => 4 * Second <= MaxWait (who s)) steps ->
    0 <= tokens_at t0 (rateLimiter w) (clock w) ->
    forallb (fun r => negb (is_throttled r)) (fst (run steps w)) = true.
Proof.
  induction steps as [|s rest IH]; intros w t Hinv Ht Hok Hall Hnodebt;
    [reflexivity|].
  destruct Hok as (Hp & Hnow & Hrest).
  inversion Hall as [|s' rest' Hs Hall']; subst s' rest'.
  cbn [session fst forallb].
  set (wa := advance (pause s) w) in *.
  assert (Hta : t <= clock wa) by (cbn; lia).
  pose proof (GetProxyScore_on_bucket t0 t (who s) (target s) wa
                Hinv Hta Hnow) as Hcall.
  cbv zeta in Hcall.
  change (rateLimiter wa) with (rateLimiter w) in Hcall.
  set (w' := snd (query (who s) (target s) wa)) in *.
  pose proof (tick_of_bounds t0 (clock wa)) as Hk.
  pose proof (tick_of_mono t0 (clock w) (clock wa) ltac:(cbn; lia)) as Hmono.
  set (k := tick_of t0 (clock wa)) in *.
  unfold tokens_at in Hcall, Hnodebt. fold k in Hcall.
  set (a := Z.min 15 _) in Hcall.
  assert (Ha0 : 0 <= a) by (unfold a; lia).
  assert (Ha15 : a <= 15) by (unfold a; lia).
  assert (Hclk : clock wa = clock w + pause s) by reflexivity.
  destruct Hinv as [_ _ _ _ [Hc0 Hc1] _ _ _].
  change (4 * Second) with 4000000000 in *. unfold horizon in *.
  destruct Hcall as [(Ha1 & Hg & Hb & Hcl)
                    | [(Hle & Hwt & Hg & Hb & Hcl)
                      | (Hle & Hwt & Hg & Hb & Hcl)]].
  - rewrite (granted_not_throttled _ _ _ Hg). cbn [negb andb].
    apply (IH w' (clock wa)); try assumption; try lia.
    + rewrite Hb. apply bucket_at_inv; unfold horizon; lia.
    + rewrite Hb, Hcl. unfold tokens_at.
      cbn [bucket_at ratelimit.availableTokens ratelimit.latestTick].
      fold k. lia.
  - lia.
  - rewrite (granted_not_throttled _ _ _ Hg). cbn [negb andb].
    assert (a = 0) by lia. subst a.
    apply (IH w' (clock wa)); try assumption; try lia.
    + rewrite Hb. apply bucket_at_inv; unfold horizon; lia.
    + rewrite Hb, Hcl. unfold tokens_at.
      cbn [bucket_at ratelimit.availableTokens ratelimit.latestTick].
      replace (clock wa + (t0 + (k - Z.min 15 _ + 1) * 4000000000 - clock wa))
        with (t0 + (k + 1) * 4000000000) by lia.
      rewrite tick_of_start. lia.
Qed.

(** X13: a patient program is never throttled.  When the bucket owes
    no token at the start, and every call comes from a client whose
    [MaxWait] is four seconds or more, however much more, no call of
    a program that makes them one after the other returns the
    throttling error; the clock readings of the calls stay below the
    [horizon]. *)
Theorem session_never_throttled (t0 t : Time) (steps : list Step)
    (w : World) :
  Reachable t0 t (rateLimiter w) ->
  t <= clock w ->
  run_in_horizon t0 steps w ->
  Forall (fun s => 4 * Second <= MaxWait (who s)) steps ->
  0 <= tokens_at t0 (rateLimiter w) (clock w) ->
  forallb (fun r => negb (is_throttled r)) (fst (run steps w)) = true.
Proof.
  intros Hreach. apply Reachable_inv in Hreach.
  now apply session_never_throttled_from.
Qed.

End QueryOutcomes.

(** *** Two answers, one result *)

(** X7: a 429 and an error of the service that says
    [Rate limit exceeded] give the caller the same score and the same
    error; by the result alone the two cannot be told apart. *)
Theorem rate_limit_results_coincide
    (Duration_String : Duration -> string)
    (url_Parse_error : string -> option string)
    (Do1 Do2 : Request -> Response + string)
    (Decode1 Decode2 : string -> response + string)
    (c : Client) (ip : string) (w : World)
    (resp1 resp2 : Response) (respObj : response) :
  token_granted c w = true ->
  url_Parse_error (getURL c ip) = None ->
  Do1 (request_of c ip) = inl resp1 ->
  StatusCode resp1 = 429 ->
  Do2 (request_of c ip) = inl resp2 ->
  StatusCode resp2 <> 429 ->
  Decode2 (Body resp2) = inl respObj ->
  Status respObj <> "success"%string ->
  ErrMsg respObj = "Rate limit exceeded"%string ->
  fst (GetProxyScore Duration_String url_Parse_error Do1 Decode1 c ip w)
  = fst (GetProxyScore Duration_String url_Parse_error Do2 Decode2 c ip w).
Proof.
  intros Hok Hurl Hdo1 Hc1 Hdo2 Hc2 Hdec Hst Hmsg.
  pose proof (GetProxyScore_cases Duration_String url_Parse_error Do1
                Decode1 c ip w) as H1.
  pose proof (GetProxyScore_cases Duration_String url_Parse_error Do2
                Decode2 c ip w) as H2.
  cbv zeta in H1, H2.
  assert (E1 : fst (GetProxyScore Duration_String url_Parse_error Do1
                      Decode1 c ip w)
               = (float32_zero, Some "API error: Rate limit exceeded"%string)).
  { repeat match type of H1 with
           | _ \/ _ => destruct H1 as [H1|H1]
           end;
      repeat match goal with
             | H : _ /\ _ |- _ => destruct H
             | H : exists _, _ |- _ => destruct H
             end;
      try congruence.
    match goal with
    | H : GetProxyScore _ _ _ _ _ _ _ = _ |- _ => rewrite H
    end. reflexivity. }
  assert (E2 : fst (GetProxyScore Duration_String url_Parse_error Do2
                      Decode2 c ip w)
               = (float32_zero,
                  Some ("API error: " ++ ErrMsg respObj)%string)).
  { clear H1 E1.
    repeat match type of H2 with
           | _ \/ _ => destruct H2 as [H2|H2]
           end;
      repeat match goal with
             | H : _ /\ _ |- _ => destruct H
             | H : exists _, _ |- _ => destruct H
             end;
      try congruence.
    match goal with
    | H : GetProxyScore _ _ _ _ _ _ _ = _ |- _ => rewrite H
    end. cbn [fst]. congruence. }
  rewrite E1, E2, Hmsg. reflexivity.
Qed.

(** *** [getURL] does not escape *)

Lemma string_app_assoc (a b c : string) :
  ((a ++ b) ++ c)%string = (a ++ (b ++ c))%string.
Proof. induction a as [|x a IH]; cbn; [|rewrite IH]; reflexivity. Qed.

(** X8: the address goes into the URL as it is.  An ampersand in it
    starts a query parameter of its own: the address [ip&contact=x]
    gives the client the very URL that the address [ip] gives a client
    whose email is [x&contact=] followed by its own. *)
Theorem getURL_unescaped (c : Client) (ip x : string) :
  getURL c (ip ++ "&contact=" ++ x)
  = getURL {| Email := (x ++ "&contact=" ++ Email c)%string;
              Scheme := Scheme c; Check := Check c; MaxWait := MaxWait c |}
           ip.
Proof.
  unfold getURL. rewrite !Sprintf_getURL.
  cbn [Email Scheme Check].
  do 3 f_equal.
  rewrite !string_app_assoc. reflexivity.
Qed.

(** ** The further statements at work on the examples *)

(** The drained bucket is one the package gets to: fifteen calls on
    tick 0. *)
Lemma Reachable_burst (m : nat) :
  (m <= 15)%nat -> Reachable 0 0 (bucket_at 0 (15 - Z.of_nat m) 0).
Proof.
  induction m as [|m IH]; intros Hm.
  - exact (Reach_init 0).
  - specialize (IH ltac:(lia)).
    pose proof (Reach_take 0 0 _ 0 0 IH (Z.le_refl 0)
                  ltac:(unfold horizon; lia) ltac:(unfold horizon; lia)) as H.
    rewrite (take_cases 0 0 _ 0 0 (Reachable_inv 0 0 _ IH) (Z.le_refl 0)
               ltac:(unfold horizon; lia)) in H.
    cbn [bucket_at ratelimit.availableTokens ratelimit.latestTick] in H.
    change (tick_of 0 0) with 0 in H.
    replace (Z.min 15 (15 - Z.of_nat m + (0 - 0))) with (15 - Z.of_nat m)
      in H by lia.
    destruct (Z.leb_spec 1 (15 - Z.of_nat m)); [|lia].
    cbn [snd] in H.
    replace (15 - Z.of_nat (S m)) with (15 - Z.of_nat m - 1) by lia.
    exact H.
Qed.

Lemma Reachable_drained : Reachable 0 0 (rateLimiter drained_world).
Proof. exact (Reachable_burst 15 (le_n 15)). Qed.

(** A line feed in the address: the URL is refused, nothing goes out. *)
Lemma GetProxyScore_request_refused_witness :
  token_granted example_client (boot 0) = true
  /\ example_url_Parse_control (getURL example_client ip_with_newline)
     = Some "net/url: invalid control character in URL"%string
  /\ GetProxyScore example_Duration_String example_url_Parse_control
                   (answer 200 body_success_half) example_Decode
                   example_client ip_with_newline (boot 0)
     = ((float32_zero,
         Some "Failed preparing request: net/url: invalid control character in URL"%string),
        through_the_bucket example_client (boot 0)).
Proof.
  assert (H : token_granted example_client (boot 0) = true)
    by (vm_compute; reflexivity).
  assert (Hu : example_url_Parse_control (getURL example_client ip_with_newline)
               = Some "net/url: invalid control character in URL"%string)
    by (vm_compute; reflexivity).
  split; [exact H|]. split; [exact Hu|].
  exact (GetProxyScore_request_refused
           example_Duration_String example_url_Parse_control
           (answer 200 body_success_half) example_Decode
           example_client ip_with_newline (boot 0) _ H Hu).
Defined.

(** The network is down: one request, no body. *)
Lemma GetProxyScore_transport_failure_witness :
  token_granted example_client (boot 0) = true
  /\ GetProxyScore example_Duration_String example_url_Parse_error
                   (unreachable "context deadline exceeded") example_Decode
                   example_client "1.2.3.4" (boot 0)
     = ((float32_zero,
         Some "Failed to query API: context deadline exceeded"%string),
        emit (HTTPDo (request_of example_client "1.2.3.4"))
             (through_the_bucket example_client (boot 0))).
Proof.
  assert (H : token_granted example_client (boot 0) = true)
    by (vm_compute; reflexivity).
  split; [exact H|].
  exact (GetProxyScore_transport_failure
           example_Duration_String example_url_Parse_error
           (unreachable "context deadline exceeded") example_Decode
           example_client "1.2.3.4" (boot 0) _ H eq_refl eq_refl).
Defined.

(** The parse error is one of the five kinds. *)
Lemma GetProxyScore_error_kinds_witness :
  snd (fst (example_GetProxyScore 502 body_malformed example_client
              "1.2.3.4" (boot 0)))
  = Some "Failed to parse API response: invalid character '<' looking for beginning of value"%string
  /\ known_error "Failed to parse API response: invalid character '<' looking for beginning of value" = true.
Proof.
  assert (H : snd (fst (example_GetProxyScore 502 body_malformed
                          example_client "1.2.3.4" (boot 0)))
              = Some "Failed to parse API response: invalid character '<' looking for beginning of value"%string)
    by (vm_compute; reflexivity).
  split; [exact H|].
  exact (GetProxyScore_error_kinds
           example_Duration_String example_url_Parse_error
           (answer 502 body_malformed) example_Decode
           example_client "1.2.3.4" (boot 0) _ H).
Defined.

(** The spec's success, read backwards. *)
Lemma GetProxyScore_nil_error_sound_witness :
  snd (fst (example_GetProxyScore 200 body_success_half example_client
              "1.2.3.4" (boot 0))) = None
  /\ token_granted example_client (boot 0) = true
  /\ exists resp respObj,
       answer 200 body_success_half (request_of example_client "1.2.3.4")
       = inl resp
       /\ StatusCode resp <> 429
       /\ example_Decode (Body resp) = inl respObj
       /\ Status respObj = "success"%string
       /\ fst (fst (example_GetProxyScore 200 body_success_half
                      example_client "1.2.3.4" (boot 0)))
          = Score respObj.
Proof.
  assert (H : snd (fst (example_GetProxyScore 200 body_success_half
                          example_client "1.2.3.4" (boot 0))) = None)
    by (vm_compute; reflexivity).
  split; [exact H|].
  destruct (GetProxyScore_nil_error_sound
              example_Duration_String example_url_Parse_error
              (answer 200 body_success_half) example_Decode
              example_client "1.2.3.4" (boot 0) H) as (Hg & _ & Hrest).
  split; [exact Hg | exact Hrest].
Defined.

(** A 429 with a page of HTML, and a 200 with the service's own
    [Rate limit exceeded]. *)
Lemma rate_limit_results_coincide_witness :
  fst (GetProxyScore example_Duration_String example_url_Parse_error
                     (answer 429 body_malformed) example_Decode
                     example_client "1.2.3.4" (boot 0))
  = fst (GetProxyScore example_Duration_String example_url_Parse_error
                       (answer 200 body_error_rate_limit)
                       example_Decode_rate_limit
                       example_client "1.2.3.4" (boot 0)).
Proof.
  assert (Hc : 200 <> 429) by discriminate.
  assert (Hs : "error"%string <> "success"%string) by discriminate.
  exact (rate_limit_results_coincide
           example_Duration_String example_url_Parse_error
           (answer 429 body_malformed) (answer 200 body_error_rate_limit)
           example_Decode example_Decode_rate_limit
           example_client "1.2.3.4" (boot 0)
           {| StatusCode := 429; Body := body_malformed |}
           {| StatusCode := 200; Body := body_error_rate_limit |}
           {| Status := "error"; ErrMsg := "Rate limit exceeded";
              Score := float32_zero |}
           eq_refl eq_refl eq_refl eq_refl eq_refl Hc eq_refl Hs eq_refl).
Defined.

(** [MaxWait] zero on the drained bucket: refused, at once. *)
Lemma GetProxyScore_nonpositive_MaxWait_witness :
  MaxWait example_client <= 0
  /\ token_granted example_client drained_world = false
  /\ clock (snd (example_GetProxyScore 200 body_success_half example_client
                   "1.2.3.4" drained_world)) = 0.
Proof.
  assert (Hm : MaxWait example_client <= 0) by (vm_compute; discriminate).
  split; [exact Hm|].
  exact (GetProxyScore_nonpositive_MaxWait
           example_Duration_String example_url_Parse_error
           (answer 200 body_success_half) example_Decode
           0 0 example_client "1.2.3.4" drained_world
           Reachable_drained (Z.le_refl 0) eq_refl Hm).
Defined.

(** The patient client on the drained bucket sleeps four of its five
    seconds and wakes on tick 1. *)
Lemma GetProxyScore_sleeps_within_MaxWait_witness :
  clock (snd (example_GetProxyScore 200 body_success_half patient_client
                "1.2.3.4" drained_world)) = 4 * Second
  /\ 0 <= 4 * Second - 0 <= Z.max 0 (MaxWait patient_client)
  /\ token_granted patient_client drained_world = true.
Proof.
  assert (Hc : clock (snd (example_GetProxyScore 200 body_success_half
                             patient_client "1.2.3.4" drained_world))
               = 4 * Second) by (vm_compute; reflexivity).
  split; [exact Hc|].
  destruct (GetProxyScore_sleeps_within_MaxWait
              example_Duration_String example_url_Parse_error
              (answer 200 body_success_half) example_Decode
              0 0 patient_client "1.2.3.4" drained_world
              Reachable_drained (Z.le_refl 0) eq_refl) as [Hb Hw].
  split.
  - exact Hb.
  - apply Hw. vm_compute. reflexivity.
Defined.

(** The client that waits a second, refused twice on the drained
    bucket. *)
Lemma throttled_call_repeatable_witness :
  token_granted (NewClient "a@b.com" false Static Second) drained_world = false
  /\ example_GetProxyScore 200 body_success_half
       (NewClient "a@b.com" false Static Second) "1.2.3.4"
       (snd (example_GetProxyScore 200 body_success_half
               (NewClient "a@b.com" false Static Second) "1.2.3.4"
               drained_world))
     = ((float32_zero,
         Some "Throttled: Can't make query within the next 1s"%string),
        drained_world).
Proof.
  assert (H : token_granted (NewClient "a@b.com" false Static Second)
                            drained_world = false) by (vm_compute; reflexivity).
  split; [exact H|].
  exact (throttled_call_repeatable
           example_Duration_String example_url_Parse_error
           (answer 200 body_success_half) example_Decode
           0 0 (NewClient "a@b.com" false Static Second) "1.2.3.4"
           drained_world Reachable_drained (Z.le_refl 0) eq_refl eq_refl H).
Defined.

(** The first call of the process takes the fifteenth token. *)
Lemma GetProxyScore_takes_one_token_witness :
  Reachable 0 0 (rateLimiter (boot 0))
  /\ rateLimiter (snd (example_GetProxyScore 500 body_malformed
                         example_client "1.2.3.4" (boot 0)))
     = bucket_at 0 14 0.
Proof.
  split; [exact (Reach_init 0)|].
  exact (GetProxyScore_takes_one_token
           example_Duration_String example_url_Parse_error
           (answer 500 body_malformed) example_Decode
           0 0 example_client "1.2.3.4" (boot 0)
           (Reach_init 0) (Z.le_refl 0) eq_refl).
Defined.

(** Seventeen calls of the patient client from the start: fifteen at
    once, two after a sleep of four seconds each; seventeen requests
    by the end of tick 2. *)
Lemma session_requests_bounded_witness :
  session_ok example_Duration_String example_url_Parse_error
             (answer 200 body_success_half) example_Decode
             0 example_session (boot 0)
  /\ requests_sent
       (trace (snd (session example_Duration_String example_url_Parse_error
                            (answer 200 body_success_half) example_Decode
                            example_session (boot 0))))
     - requests_sent (trace (boot 0))
     <= 15 + (2 - 0).
Proof.
  assert (Hok : session_ok example_Duration_String example_url_Parse_error
                  (answer 200 body_success_half) example_Decode
                  0 example_session (boot 0)).
  { vm_compute. repeat split; try reflexivity; intro H; discriminate H. }
  split; [exact Hok|].
  exact (session_requests_bounded
           example_Duration_String example_url_Parse_error
           (answer 200 body_success_half) example_Decode
           0 0 example_session (boot 0)
           (Reach_init 0) (Z.le_refl 0) eq_refl Hok).
Defined.

(** The same seventeen calls by the client whose [MaxWait] is the
    greatest a [Duration] holds: none is throttled. *)
Lemma session_never_throttled_witness :
  session_in_horizon example_Duration_String example_url_Parse_error
                     (answer 200 body_success_half) example_Decode
                     0 most_patient_session (boot 0)
  /\ Forall (fun s => 4 * Second <= MaxWait (who s)) most_patient_session
  /\ forallb (fun r => negb (is_throttled r))
       (fst (session example_Duration_String example_url_Parse_error
                     (answer 200 body_success_half) example_Decode
                     most_patient_session (boot 0))) = true.
Proof.
  assert (Hok : session_in_horizon
                  example_Duration_String example_url_Parse_error
                  (answer 200 body_success_half) example_Decode
                  0 most_patient_session (boot 0)).
  { vm_compute. repeat split; try reflexivity; intro H; discriminate H. }
  assert (Hall : Forall (fun s => 4 * Second <= MaxWait (who s))
                        most_patient_session).
  { unfold most_patient_session. cbn [repeat].
    repeat constructor; vm_compute; discriminate. }
  split; [exact Hok|]. split; [exact Hall|].
  exact (session_never_throttled
           example_Duration_String example_url_Parse_error
           (answer 200 body_success_half) example_Decode
           0 0 most_patient_session (boot 0)
           (Reach_init 0) (Z.le_refl 0) Hok Hall
           ltac:(vm_compute; discriminate)).
Defined.
